(** * RepoPack: the assessment generator [generate_assessment.py]

    A shallow embedding of the generator script and the properties of its
    pipeline: two image renderers, the document composer, the package
    assembler (directory tree, markdown transcription, archive) and the
    optional publisher that drives [git].

    Conventions of the embedding.
    - The file system is a tree of named entries; a path is the list of its
      components from the root.  Symbolic links and permissions are absent.
    - A Python call that may raise is a computation in the monad [M]: it
      returns an [outcome] and the state it leaves behind, so the effects
      that precede an exception stay in place.
    - The encoders of the third-party libraries (PIL, matplotlib,
      python-docx, zipfile) are not modelled: a written file holds the
      abstract value handed to the encoder.
    - Row and column counts are integers, the radius of the circles is an
      exact rational number.
    - What a child process does is a parameter, [tool], of the publisher;
      [git_tool] is a small model of git for concrete runs.
    - The command line is taken as parsed, and console output ([print]) is
      left out. *)

From Stdlib Require Import String Ascii List ZArith QArith Qround Bool Lia Permutation.
Import ListNotations.
Local Open Scope string_scope.
Local Open Scope list_scope.
Local Open Scope Z_scope.
Local Set Warnings "-register-all".

(* ================================================================== *)
(** ** Exceptions and the state-and-exception monad *)
(* ================================================================== *)

(** The Python exceptions the script can meet. *)
Inductive exn : Type :=
| FileNotFoundError
| FileExistsError
| NotADirectoryError
| IsADirectoryError
| PermissionError
| SameFileError
| ValueError
| OSError (msg : string)
| ImportError (msg : string)
| CalledProcessError (returncode : Z) (cmd : list string)
| KeyboardInterrupt.

(** [isinstance(e, Exception)]: everything above but [KeyboardInterrupt],
    which derives from [BaseException] only. *)
Definition is_Exception (e : exn) : bool :=
  match e with
  | KeyboardInterrupt => false
  | _ => true
  end.

Definition is_CalledProcessError (e : exn) : bool :=
  match e with
  | CalledProcessError _ _ => true
  | _ => false
  end.

Inductive outcome (A : Type) : Type :=
| Ok (a : A)
| Raise (e : exn).
Arguments Ok {A} a.
Arguments Raise {A} e.

Definition M (S A : Type) : Type := S -> outcome A * S.

Definition ret {S A : Type} (a : A) : M S A := fun s => (Ok a, s).

Definition raise {S A : Type} (e : exn) : M S A := fun s => (Raise e, s).

Definition bind {S A B : Type} (m : M S A) (k : A -> M S B) : M S B :=
  fun s =>
    match m s with
    | (Ok a, s') => k a s'
    | (Raise e, s') => (Raise e, s')
    end.

Declare Scope monad_scope.
Delimit Scope monad_scope with monad.
Notation "x <- c1 ;; c2" := (bind c1 (fun x => c2))
  (at level 61, c1 at next level, right associativity) : monad_scope.
Notation "' pat <- c1 ;; c2" := (bind c1 (fun x => match x with pat => c2 end))
  (at level 61, pat pattern, c1 at next level, right associativity) : monad_scope.
Notation "c1 ;; c2" := (bind c1 (fun _ => c2))
  (at level 61, right associativity) : monad_scope.
Local Open Scope monad_scope.

(** [try: m  except <cls>: h e], the handler seeing only the exceptions
    [catches] accepts. *)
Definition try_except {S A : Type} (m : M S A) (catches : exn -> bool)
    (h : exn -> M S A) : M S A :=
  fun s =>
    match m s with
    | (Ok a, s') => (Ok a, s')
    | (Raise e, s') => if catches e then h e s' else (Raise e, s')
    end.

(** [if c: m] *)
Definition when {S : Type} (c : bool) (m : M S unit) : M S unit :=
  if c then m else ret tt.

(** A pure value that may be an exception, entering the monad. *)
Definition lift_outcome {S A : Type} (o : outcome A) : M S A :=
  fun s => (o, s).

(** [for x in xs: body x] *)
Fixpoint for_each {S A : Type} (xs : list A) (body : A -> M S unit) : M S unit :=
  match xs with
  | [] => ret tt
  | x :: xs' => body x ;; for_each xs' body
  end.

(* ================================================================== *)
(** ** Strings *)
(* ================================================================== *)

(** The line feed, Python's ['\n']. *)
Definition nl : string := String (ascii_of_nat 10) EmptyString.

(** [s.split('\n')] *)
Fixpoint lines (s : string) : list string :=
  match s with
  | EmptyString => [EmptyString]
  | String c s' =>
      if Ascii.eqb c (ascii_of_nat 10) then EmptyString :: lines s'
      else match lines s' with
           | [] => [String c EmptyString]
           | l :: ls => String c l :: ls
           end
  end.

(** [sep.join(parts)] is [String.concat sep parts]. *)

(** [range(n)] *)
Definition range (n : Z) : list Z := map Z.of_nat (seq 0 (Z.to_nat n)).

(* ================================================================== *)
(** ** Values handed to the encoders *)
(* ================================================================== *)

(** *** PIL *)

Inductive font : Type := DefaultFont.

Inductive draw_op : Type :=
| DrawText (xy : Z * Z) (text fill : string) (fnt : option font)
| DrawRectangle (box : Z * Z * Z * Z) (outline : string).

Record image : Type := mkImage {
  img_mode : string;
  img_size : Z * Z;
  img_color : string;
  img_ops : list draw_op
}.

Definition Image_new (mode : string) (size : Z * Z) (color : string) : image :=
  mkImage mode size color [].

(** [draw.text(xy, text, fill=fill, font=fnt)] and
    [draw.rectangle(box, outline=outline)] add to what is drawn; a text is
    recorded with the font it is given, or none. *)
Definition draw_text (xy : Z * Z) (text fill : string) (fnt : option font)
    (img : image) : image :=
  mkImage (img_mode img) (img_size img) (img_color img)
          (img_ops img ++ [DrawText xy text fill fnt]).

Definition draw_rectangle (box : Z * Z * Z * Z) (outline : string)
    (img : image) : image :=
  mkImage (img_mode img) (img_size img) (img_color img)
          (img_ops img ++ [DrawRectangle box outline]).

(** *** matplotlib *)

Record circle : Type := mkCircle {
  c_center : Q * Q;
  c_radius : Q;
  c_edgecolor : string;
  c_fill : bool;
  c_linewidth : Q
}.

Record figure : Type := mkFigure {
  fig_figsize : Q * Q;
  fig_dpi : Z;
  fig_patches : list circle;
  fig_xlim : Z * Z;
  fig_ylim : Z * Z;
  fig_aspect : string;
  fig_axis : string;
  fig_pad : Q
}.

(** *** python-docx *)

Inductive block : Type :=
| Heading (text : string) (level : Z)
| Paragraph (text : string)
| Picture (src : string) (width_inches : Z).

Definition document : Type := list block.

Definition Document : document := [].

Definition add_heading (text : string) (level : Z) (doc : document) : document :=
  doc ++ [Heading text level].

Definition add_paragraph (text : string) (doc : document) : document :=
  doc ++ [Paragraph text].

(** *** File contents *)

Inductive content : Type :=
| Text (s : string)
| Png (img : image)
| FigurePng (fig : figure) (pad_inches : Q)
| Docx (doc : document)
| ZipArchive (entries : list (string * content)).

(* ================================================================== *)
(** ** The file system *)
(* ================================================================== *)

Definition path : Type := list string.

Inductive node : Type :=
| File (c : content)
| Dir (entries : list (string * node)).

(** Directory entries: the first entry of a name is the one a lookup sees,
    a new name goes to the end. *)
Fixpoint alist_get (k : string) (es : list (string * node)) : option node :=
  match es with
  | [] => None
  | (k', v) :: es' => if String.eqb k k' then Some v else alist_get k es'
  end.

Fixpoint alist_del (k : string) (es : list (string * node)) : list (string * node) :=
  match es with
  | [] => []
  | (k', v) :: es' =>
      if String.eqb k k' then alist_del k es' else (k', v) :: alist_del k es'
  end.

Fixpoint alist_set (k : string) (v : node) (es : list (string * node))
    : list (string * node) :=
  match es with
  | [] => [(k, v)]
  | (k', v') :: es' =>
      if String.eqb k k' then (k, v) :: es' else (k', v') :: alist_set k v es'
  end.

Definition alist_put (k : string) (o : option node) (es : list (string * node))
    : list (string * node) :=
  match o with
  | Some v => alist_set k v es
  | None => alist_del k es
  end.

Fixpoint lookup (p : path) (n : node) : option node :=
  match p with
  | [] => Some n
  | c :: p' =>
      match n with
      | File _ => None
      | Dir es =>
          match alist_get c es with
          | Some m => lookup p' m
          | None => None
          end
      end
  end.

(** The single way the tree changes: [f] sees what is at [p] (nothing, a
    file or a directory) and says what shall be there.  The directory
    holding [p] has to exist, unless [parents] asks for the missing ones to
    be made.  The root itself is never replaced. *)
Fixpoint alter (parents : bool) (p : path)
    (f : option node -> outcome (option node)) (n : node) : outcome node :=
  match p with
  | [] => Raise PermissionError
  | c :: p' =>
      match n with
      | File _ => Raise NotADirectoryError
      | Dir es =>
          match p' with
          | [] =>
              match f (alist_get c es) with
              | Ok r => Ok (Dir (alist_put c r es))
              | Raise e => Raise e
              end
          | _ :: _ =>
              match alist_get c es with
              | Some m =>
                  match alter parents p' f m with
                  | Ok m' => Ok (Dir (alist_set c m' es))
                  | Raise e => Raise e
                  end
              | None =>
                  if parents then
                    match alter parents p' f (Dir []) with
                    | Ok m' => Ok (Dir (alist_set c m' es))
                    | Raise e => Raise e
                    end
                  else Raise FileNotFoundError
              end
          end
      end
  end.

Definition update (parents : bool) (p : path)
    (f : option node -> outcome (option node)) : M node unit :=
  fun fs =>
    match p with
    | [] =>
        match f (Some fs) with
        | Ok (Some fs') => (Ok tt, fs')
        | Ok None => (Raise PermissionError, fs)
        | Raise e => (Raise e, fs)
        end
    | _ :: _ =>
        match alter parents p f fs with
        | Ok fs' => (Ok tt, fs')
        | Raise e => (Raise e, fs)
        end
    end.

(** The tree [n] with [m] put where [p] leads, when [p] leads somewhere. *)
Fixpoint replace (p : path) (m : node) (n : node) : node :=
  match p with
  | [] => m
  | c :: p' =>
      match n with
      | File _ => n
      | Dir es =>
          match alist_get c es with
          | Some m0 => Dir (alist_set c (replace p' m m0) es)
          | None => n
          end
      end
  end.

(** [p / name] *)
Definition joinpath (p : path) (name : string) : path :=
  if String.eqb name "" then p else p ++ [name].
Notation "p // s" := (joinpath p s) (at level 40, left associativity).

(** [p.name] *)
Definition name (p : path) : string := last p "".

(** [str(p)] for an absolute path. *)
Definition str (p : path) : string := "/" ++ String.concat "/" p.

(** [str(p)] for a relative path. *)
Definition str_rel (p : path) : string :=
  match p with
  | [] => "."
  | _ => String.concat "/" p
  end.

(** [p.relative_to(other)] *)
Fixpoint relative_to (p other : path) {struct other} : outcome path :=
  match other with
  | [] => Ok p
  | b :: other' =>
      match p with
      | [] => Raise ValueError
      | c :: p' => if String.eqb c b then relative_to p' other' else Raise ValueError
      end
  end.

(** [p.exists()] *)
Definition exists_ (p : path) : M node bool :=
  fun fs => (Ok (match lookup p fs with Some _ => true | None => false end), fs).

(** [os.path.isdir(p)] *)
Definition isdir (p : path) : M node bool :=
  fun fs => (Ok (match lookup p fs with Some (Dir _) => true | _ => false end), fs).

(** Reading a regular file. *)
Definition read_file (p : path) : M node content :=
  fun fs =>
    match lookup p fs with
    | Some (File c) => (Ok c, fs)
    | Some (Dir _) => (Raise IsADirectoryError, fs)
    | None => (Raise FileNotFoundError, fs)
    end.

(** Creating or overwriting a regular file. *)
Definition write_to (c : content) (o : option node) : outcome (option node) :=
  match o with
  | Some (Dir _) => Raise IsADirectoryError
  | _ => Ok (Some (File c))
  end.

Definition write_file (p : path) (c : content) : M node unit :=
  update false p (write_to c).

(** [p.mkdir(parents=parents, exist_ok=exist_ok)] *)
Definition mkdir (parents exist_ok : bool) (p : path) : M node unit :=
  update parents p (fun o =>
    match o with
    | None => Ok (Some (Dir []))
    | Some (Dir es) => if exist_ok then Ok (Some (Dir es)) else Raise FileExistsError
    | Some (File _) => Raise FileExistsError
    end).

(** [shutil.rmtree(p)] *)
Definition rmtree (p : path) : M node unit :=
  update false p (fun o =>
    match o with
    | Some (Dir _) => Ok None
    | Some (File _) => Raise NotADirectoryError
    | None => Raise FileNotFoundError
    end).

(** [p.unlink()] *)
Definition unlink (p : path) : M node unit :=
  update false p (fun o =>
    match o with
    | Some (File _) => Ok None
    | Some (Dir _) => Raise IsADirectoryError
    | None => Raise FileNotFoundError
    end).

(** [shutil.copy(src, dst)]: into [dst] when it is a directory, onto it
    otherwise. *)
Definition shutil_copy (src dst : path) : M node unit :=
  d <- isdir dst ;;
  let dst := if d then dst // name src else dst in
  c <- read_file src ;;
  (if list_eq_dec string_dec src dst then raise SameFileError else ret tt) ;;
  write_file dst c.

(** [os.walk(top)]: for the directory and then for each of its
    sub-directories in turn, its path, the names of its sub-directories and
    the names of its other entries. *)
Definition subdirs (es : list (string * node)) : list string :=
  map fst (filter (fun e => match snd e with Dir _ => true | File _ => false end) es).

Definition nondirs (es : list (string * node)) : list string :=
  map fst (filter (fun e => match snd e with Dir _ => false | File _ => true end) es).

Fixpoint walk (root : path) (n : node) : list (path * list string * list string) :=
  match n with
  | File _ => []
  | Dir es =>
      (root, subdirs es, nondirs es) ::
      (fix below (l : list (string * node)) : list (path * list string * list string) :=
         match l with
         | [] => []
         | (c, m) :: l' => walk (root ++ [c]) m ++ below l'
         end) es
  end.

Definition os_walk (top : path) : M node (list (path * list string * list string)) :=
  fun fs =>
    match lookup top fs with
    | Some n => (Ok (walk top n), fs)
    | None => (Ok [], fs)
    end.

(* ================================================================== *)
(** ** Image Renderer A: [make_uniform_image] *)
(* ================================================================== *)

(** [load_default] is what [ImageFont.load_default()] does in the
    environment of the run: a font, or an exception. *)
Definition make_uniform_image (load_default : outcome font) (path_ : path)
    : M node unit :=
  let img := Image_new "RGB" (900, 280) "white" in
  fnt <- try_except (f <- lift_outcome load_default ;; ret (Some f))
                    is_Exception (fun _ => ret None) ;;
  let img := draw_text (10, 10) "Available Options" "black" fnt img in
  let img := draw_text (20, 40) "Shirts:" "black" fnt img in
  let shirts := ["Tan"; "Red"; "White"; "Yellow"] in
  let pants := ["Black"; "Khaki"; "Navy"] in
  let hats := ["Blue"; "Green"; "Brown"] in
  let y := 70 in
  let '(box_w, box_h) := (200, 30) in
  let '(img, y) :=
    fold_left (fun '(img, y) s =>
      let img := draw_rectangle (20, y, 20 + box_w, y + box_h) "black" img in
      let img := draw_text (25, y + 6) s "black" fnt img in
      (img, y + 40)) shirts (img, y) in
  let y := 70 in
  let '(img, y) :=
    fold_left (fun '(img, y) p =>
      let img := draw_rectangle (260, y, 260 + box_w, y + box_h) "black" img in
      let img := draw_text (265, y + 6) p "black" fnt img in
      (img, y + 40)) pants (img, y) in
  let y := 70 in
  let '(img, y) :=
    fold_left (fun '(img, y) h =>
      let img := draw_rectangle (500, y, 500 + box_w, y + box_h) "black" img in
      let img := draw_text (505, y + 6) h "black" fnt img in
      (img, y + 40)) hats (img, y) in
  write_file path_ (Png img).

(* ================================================================== *)
(** ** Image Renderer B: [make_packed_spheres_image] *)
(* ================================================================== *)

(** Python's [int(x)]: the integer part, rounding towards zero. *)
Definition py_int (x : Q) : Z :=
  if Qle_bool 0 x then Qfloor x else Qceiling x.

(** The figure the renderer hands to [savefig], with the canvas size in
    pixels it computed.  The row and column counts are Python integers, the
    radius is a rational number. *)
Definition packed_spheres_figure (rows cols : Z) (radius_cm : Q)
    : Z * Z * figure :=
  let scale := 30 in
  let diameter := (2 * radius_cm)%Q in
  let r_px := (radius_cm * inject_Z scale)%Q in
  let width_px := py_int (inject_Z cols * diameter * inject_Z scale) in
  let height_px := py_int (inject_Z rows * diameter * inject_Z scale) in
  let figsize := ((inject_Z width_px / 100)%Q, (inject_Z height_px / 100)%Q) in
  let patches :=
    fold_left (fun patches i =>
      fold_left (fun patches j =>
        let cx := ((inject_Z j * diameter * inject_Z scale) + r_px)%Q in
        let cy := ((inject_Z i * diameter * inject_Z scale) + r_px)%Q in
        let circle := mkCircle (cx, cy) r_px "black" false (15 # 10) in
        patches ++ [circle]) (range cols) patches) (range rows) [] in
  (width_px, height_px,
   mkFigure figsize 100 patches (0, width_px) (0, height_px) "equal" "off" 0).

Definition make_packed_spheres_image (path_ : path) (rows cols : Z)
    (radius_cm : Q) : M node unit :=
  let '(_, _, fig) := packed_spheres_figure rows cols radius_cm in
  write_file path_ (FigurePng fig (2 # 100)).

(* ================================================================== *)
(** ** Document Composer: [create_docx] *)
(* ================================================================== *)

(** [doc.add_picture(str(src), width=Inches(w))] opens the image file. *)
Definition add_picture (src : path) (width_inches : Z) (doc : document)
    : M node document :=
  _ <- read_file src ;;
  ret (doc ++ [Picture (str src) width_inches]).

Definition create_docx (docx_path img1 img2 : path) : M node unit :=
  let doc := Document in
  let doc := add_heading "Generated Assessment Questions" 1 doc in
  let doc := add_paragraph ("@title Central Middle — Derived Assessment")%string doc in
  let doc := add_paragraph ("@description Two generated quantitative math questions similar to the base examples.")%string doc in
  let doc := add_paragraph (nl ++ "// Use this block for each question when adding Multiple Choice Questions (MCQ)")%string doc in
  let doc := add_paragraph (nl ++ "@question Each student at Riverside Prep chooses a uniform consisting of 1 shirt, 1 pair of pants, and 1 hat. The table shows the available options for each item. How many different complete uniforms are possible?")%string doc in
  let doc := add_paragraph ("@instruction Select the number of possible uniform combinations from the options.")%string doc in
  let doc := add_paragraph ("@difficulty easy")%string doc in
  let doc := add_paragraph ("@Order 1")%string doc in
  let doc := add_paragraph ("@option (A) 18")%string doc in
  let doc := add_paragraph ("@option (B) 24")%string doc in
  let doc := add_paragraph ("@@option (C) 36")%string doc in
  let doc := add_paragraph ("@option (D) 48")%string doc in
  let doc := add_paragraph ("@option (E) 72")%string doc in
  let doc := add_paragraph ("@explanation ")%string doc in
  let doc := add_paragraph ("There are 4 shirt choices, 3 pants choices, and 3 hat choices. Total combinations = 4 × 3 × 3 = 36.")%string doc in
  let doc := add_paragraph ("@subject Quantitative Math")%string doc in
  let doc := add_paragraph ("@unit Numbers and Operations")%string doc in
  let doc := add_paragraph ("@topic Combinations / Counting")%string doc in
  let doc := add_paragraph ("@plusmarks 1")%string doc in
  doc <- add_picture img1 6 doc ;;
  let doc := add_paragraph (nl ++ "@question The top view of a rectangular box containing 8 identical tightly packed spherical balls arranged in two rows of four is shown. If each ball has radius $2$ cm, which of the following is closest to the dimensions (height × width × length), in centimeters, of the rectangular package?")%string doc in
  let doc := add_paragraph ("@instruction Choose the correct dimensions from the options.")%string doc in
  let doc := add_paragraph ("@difficulty moderate")%string doc in
  let doc := add_paragraph ("@Order 2")%string doc in
  let doc := add_paragraph ("@option (A) $4 \times 8 \times 16$")%string doc in
  let doc := add_paragraph ("@option (B) $2 \times 8 \times 16$")%string doc in
  let doc := add_paragraph ("@@option (C) $4 \times 12 \times 18$")%string doc in
  let doc := add_paragraph ("@option (D) $6 \times 8 \times 16$")%string doc in
  let doc := add_paragraph ("@option (E) $8 \times 12 \times 24$")%string doc in
  let doc := add_paragraph ("@explanation ")%string doc in
  let doc := add_paragraph ("Top view shows two rows and four columns of circles (diameter = 4 cm). Width (short side) = 2 rows × 4 cm = 8 cm. Length = 4 columns × 4 cm = 16 cm. Height must accommodate one layer of balls: diameter = 4 cm. So dimensions: $4 \times 8 \times 16$.")%string doc in
  let doc := add_paragraph ("@subject Quantitative Math")%string doc in
  let doc := add_paragraph ("@unit Geometry and Measurement")%string doc in
  let doc := add_paragraph ("@topic Solid Figures / Coordinate Geometry")%string doc in
  let doc := add_paragraph ("@plusmarks 1")%string doc in
  doc <- add_picture img2 6 doc ;;
  write_file docx_path (Docx doc).

(* ================================================================== *)
(** ** Package Assembler: [make_github_folder] *)
(* ================================================================== *)

(** [zf.write(full, arcname=arcname)] on the archive open at [zip_path]. *)
Definition zf_write (zip_path full : path) (arcname : string) : M node unit :=
  c <- read_file full ;;
  z <- read_file zip_path ;;
  match z with
  | ZipArchive es => write_file zip_path (ZipArchive (es ++ [(arcname, c)]))
  | _ => raise ValueError
  end.

Definition make_github_folder (base_dir img1 img2 docx_path : path)
    : M node (path * path) :=
  let repo_dir := base_dir // "github_repo" in
  e <- exists_ repo_dir ;;
  when e (rmtree repo_dir) ;;
  mkdir true false repo_dir ;;

  let images_dir := repo_dir // "images" in
  mkdir false false images_dir ;;

  shutil_copy img1 (images_dir // name img1) ;;
  shutil_copy img2 (images_dir // name img2) ;;

  let readme := repo_dir // "README.md" in
  write_file readme (Text ("# Generated Assessment Questions" ++ nl ++ nl ++ "This repository contains two generated quantitative math questions in the requested Question Output Format, plus images." ++ nl)%string) ;;
  let questions_md := repo_dir // "QUESTIONS.md" in
  write_file questions_md (Text (
    "@title Central Middle — Derived Assessment" ++ nl ++
    "@description Two generated quantitative math questions similar to the base examples." ++ nl ++ nl ++
    "// Question 1" ++ nl ++
    "@question Each student at Riverside Prep chooses a uniform consisting of 1 shirt, 1 pair of pants, and 1 hat. The table shows the available options for each item. How many different complete uniforms are possible?" ++ nl ++
    "@instruction Select the number of possible uniform combinations from the options." ++ nl ++
    "@difficulty easy" ++ nl ++
    "@Order 1" ++ nl ++
    "@option (A) 18" ++ nl ++
    "@option (B) 24" ++ nl ++
    "@@option (C) 36" ++ nl ++
    "@option (D) 48" ++ nl ++
    "@option (E) 72" ++ nl ++
    "@explanation " ++ nl ++
    "There are 4 shirt choices, 3 pants choices, and 3 hat choices. Total combinations = 4 × 3 × 3 = 36." ++ nl ++
    "@subject Quantitative Math" ++ nl ++
    "@unit Numbers and Operations" ++ nl ++
    "@topic Combinations / Counting" ++ nl ++
    "@plusmarks 1" ++ nl ++ nl ++
    "// Question 2" ++ nl ++
    "@question The top view of a rectangular box containing 8 identical tightly packed spherical balls arranged in two rows of four is shown. If each ball has radius $2$ cm, which of the following is closest to the dimensions (height × width × length), in centimeters, of the rectangular package?" ++ nl ++
    "@instruction Choose the correct dimensions from the options." ++ nl ++
    "@difficulty moderate" ++ nl ++
    "@Order 2" ++ nl ++
    "@option (A) $4 \times 8 \times 16$" ++ nl ++
    "@option (B) $2 \times 8 \times 16$" ++ nl ++
    "@@option (C) $4 \times 12 \times 18$" ++ nl ++
    "@option (D) $6 \times 8 \times 16$" ++ nl ++
    "@option (E) $8 \times 12 \times 24$" ++ nl ++
    "@explanation " ++ nl ++
    "Top view shows two rows and four columns of circles (diameter = 4 cm). Width (short side) = 2 rows × 4 cm = 8 cm. Length = 4 columns × 4 cm = 16 cm. Height must accommodate one layer of balls: diameter = 4 cm. So dimensions: $4 \times 8 \times 16$." ++ nl ++
    "@subject Quantitative Math" ++ nl ++
    "@unit Geometry and Measurement" ++ nl ++
    "@topic Solid Figures / Coordinate Geometry" ++ nl ++
    "@plusmarks 1" ++ nl ++
    "")%string) ;;

  shutil_copy docx_path (repo_dir // name docx_path) ;;

  let zip_path := base_dir // "github_repo.zip" in
  e <- exists_ zip_path ;;
  when e (unlink zip_path) ;;
  write_file zip_path (ZipArchive []) ;;
  triples <- os_walk repo_dir ;;
  for_each triples (fun '(root, dirs, files) =>
    for_each files (fun f =>
      let full := root // f in
      arc <- lift_outcome (relative_to full repo_dir) ;;
      zf_write zip_path full (str_rel arc))) ;;
  ret (repo_dir, zip_path).

(* ================================================================== *)
(** ** Publisher: [git_init_and_push], and [main] *)
(* ================================================================== *)

(** The world of a whole run: the file system, the state [G] that the
    external tool keeps besides it, and the record of the child processes
    run so far, each with its return code. *)
Record world (G : Type) : Type := mkWorld {
  w_fs : node;
  w_git : G;
  w_calls : list (list string * Z)
}.
Arguments mkWorld {G} _ _ _.
Arguments w_fs {G} _.
Arguments w_git {G} _.
Arguments w_calls {G} _.

(** A file-system computation inside a whole run. *)
Definition liftfs {G A : Type} (m : M node A) : M (world G) A :=
  fun w =>
    let '(r, fs') := m (w_fs w) in
    (r, mkWorld fs' (w_git w) (w_calls w)).

Section Publisher.

Context {G : Type}.

(** What running a command line in a working directory does: its return
    code and its effect. *)
Variable tool : list string -> path -> node * G -> Z * (node * G).

(** [subprocess.run(cmd, cwd=cwd, check=check)] *)
Definition subprocess_run (cmd : list string) (cwd : path) (check : bool)
    : M (world G) Z :=
  fun w =>
    match lookup cwd (w_fs w) with
    | Some (Dir _) =>
        let '(rc, (fs', g')) := tool cmd cwd (w_fs w, w_git w) in
        let w' := mkWorld fs' g' (w_calls w ++ [(cmd, rc)]) in
        if check && negb (rc =? 0)
        then (Raise (CalledProcessError rc cmd), w')
        else (Ok rc, w')
    | Some (File _) => (Raise NotADirectoryError, w)
    | None => (Raise FileNotFoundError, w)
    end.

Definition git_init_and_push (repo_dir : path) (remote_url branch : string)
    : M (world G) unit :=
  let cwd := repo_dir in
  let run := fun cmd => subprocess_run cmd cwd true ;; ret tt in
  e <- liftfs (exists_ (repo_dir // ".git")) ;;
  when (negb e) (run ["git"; "init"]) ;;
  run ["git"; "checkout"; "-B"; branch] ;;
  run ["git"; "add"; "."] ;;
  run ["git"; "commit"; "-m"; "Add generated assessment questions"] ;;
  rc <- subprocess_run ["git"; "remote"] cwd false ;;
  when (rc =? 0) (run ["git"; "remote"; "remove"; "origin"]) ;;
  run ["git"; "remote"; "add"; "origin"; remote_url] ;;
  run ["git"; "push"; "-u"; "origin"; branch].

(** [outdir] is [Path(args.outdir).absolute()], [push_repo] and [branch]
    the two other arguments of the command line. *)
Definition main (load_default : outcome font) (outdir : path)
    (push_repo : option string) (branch : string) : M (world G) unit :=
  let base := outdir in
  liftfs (mkdir true true base) ;;
  let img1 := base // "uniform_table.png" in
  let img2 := base // "rect_package_topview_8.png" in
  let docx_path := base // "generated_assessment.docx" in
  liftfs (make_uniform_image load_default img1) ;;
  liftfs (make_packed_spheres_image img2 2 4 2) ;;
  liftfs (create_docx docx_path img1 img2) ;;
  '(repo_dir, zip_path) <- liftfs (make_github_folder base img1 img2 docx_path) ;;
  match push_repo with
  | Some remote =>
      if String.eqb remote "" then ret tt
      else try_except (git_init_and_push repo_dir remote branch)
                      is_CalledProcessError (fun e => raise e)
  | None => ret tt
  end.

End Publisher.

(** The assembler as [main] calls it. *)
Definition assemble (base : path) : M node (path * path) :=
  make_github_folder base (base ++ ["uniform_table.png"])
    (base ++ ["rect_package_topview_8.png"])
    (base ++ ["generated_assessment.docx"]).

(** The output directory holds the two images and the document, nothing but
    a directory stands where the Package Directory goes and nothing but a
    regular file stands where the archive goes.  These are the states in
    which the assembler completes. *)
Definition assembler_ready (base : path) (fs : node) (c1 c2 cd : content) : Prop :=
  lookup (base ++ ["uniform_table.png"]) fs = Some (File c1) /\
  lookup (base ++ ["rect_package_topview_8.png"]) fs = Some (File c2) /\
  lookup (base ++ ["generated_assessment.docx"]) fs = Some (File cd) /\
  (forall c, lookup (base ++ ["github_repo"]) fs <> Some (File c)) /\
  (forall es, lookup (base ++ ["github_repo.zip"]) fs <> Some (Dir es)).

(* ================================================================== *)
(** ** The package of a run *)
(* ================================================================== *)

(** What the assembler leaves behind when it runs in an output directory
    that holds the two images and the document and nothing else. *)
Definition assembled (c1 c2 cd : content) : node :=
  snd (make_github_folder []
         ["uniform_table.png"] ["rect_package_topview_8.png"]
         ["generated_assessment.docx"]
         (Dir [("uniform_table.png", File c1);
               ("rect_package_topview_8.png", File c2);
               ("generated_assessment.docx", File cd)])).

(** The Package Directory and the archive of that run. *)
Definition package_dir (c1 c2 cd : content) : option node :=
  lookup ["github_repo"] (assembled c1 c2 cd).

Definition package_zip (c1 c2 cd : content) : option node :=
  lookup ["github_repo.zip"] (assembled c1 c2 cd).

(** The document the composer saves when both images can be opened. *)
Definition composed : option node :=
  lookup ["generated_assessment.docx"]
    (snd (create_docx ["generated_assessment.docx"]
            ["uniform_table.png"] ["rect_package_topview_8.png"]
            (Dir [("uniform_table.png", File (Text ""));
                  ("rect_package_topview_8.png", File (Text ""))]))).

(* ================================================================== *)
(** ** Reading the tagged-line format *)
(* ================================================================== *)

(** The text of a document, paragraph by paragraph and line by line: a line
    feed inside a paragraph is a line break on the page. *)
Definition paragraphs (doc : document) : list string :=
  flat_map (fun b => match b with Paragraph t => [t] | _ => [] end) doc.

Definition doc_lines (doc : document) : list string :=
  flat_map lines (paragraphs doc).

(** The lines that carry content: neither empty nor a [//] comment. *)
Definition content_lines (ls : list string) : list string :=
  filter (fun l => negb (String.eqb l "") && negb (prefix "//" l)) ls.

(** The records of a text: each starts at a [@question] line and runs to the
    next one; what precedes the first is the header. *)
Fixpoint group (ls : list string) : list string * list (list string) :=
  match ls with
  | [] => ([], [])
  | l :: rest =>
      let (pre, rs) := group rest in
      if prefix "@question " l then ([], (l :: pre) :: rs) else (l :: pre, rs)
  end.

Definition records (ls : list string) : list (list string) :=
  snd (group (content_lines ls)).

(** The tag of a line: its first word when that starts with [@], nothing
    for a line that continues the field above it. *)
Fixpoint first_word (s : string) : string :=
  match s with
  | EmptyString => EmptyString
  | String c s' =>
      if Ascii.eqb c " "%char then EmptyString else String c (first_word s')
  end.

Definition tag_of (l : string) : string :=
  if prefix "@" l then first_word l else "".

Definition strip_prefix (pre s : string) : option string :=
  if prefix pre s
  then Some (substring (String.length pre) (String.length s - String.length pre) s)
  else None.

(** An option line: whether it carries the doubled marker, its label and
    its text. *)
Definition parse_option (l : string) : option (bool * string * string) :=
  match strip_prefix "@@option " l with
  | Some r => Some (true, substring 0 3 r, substring 4 (String.length r - 4) r)
  | None =>
      match strip_prefix "@option " l with
      | Some r => Some (false, substring 0 3 r, substring 4 (String.length r - 4) r)
      | None => None
      end
  end.

Definition is_option_line (l : string) : bool :=
  match parse_option l with Some _ => true | None => false end.

Definition option_lines (r : list string) : list string :=
  filter is_option_line r.

(** The option block of a record is well formed: five option lines in a
    row, labelled (A) to (E), one with the doubled marker and four with the
    single one. *)
Definition option_block_ok (r : list string) : Prop :=
  let opts := option_lines r in
  (exists pre post, r = pre ++ opts ++ post /\
                    option_lines pre = [] /\ option_lines post = []) /\
  length opts = 5%nat /\
  map (fun l => match parse_option l with
                | Some (_, lab, _) => lab
                | None => ""
                end) opts = ["(A)"; "(B)"; "(C)"; "(D)"; "(E)"] /\
  length (filter (prefix "@@option ") opts) = 1%nat /\
  length (filter (prefix "@option ") opts) = 4%nat.

(** The option of a record with a given label, and the marked one. *)
Definition option_labelled (lab : string) (r : list string)
    : list (bool * string * string) :=
  flat_map (fun l => match parse_option l with
                     | Some (m, lab', t) =>
                         if String.eqb lab lab' then [(m, lab', t)] else []
                     | None => []
                     end) r.

Definition marked_options (r : list string) : list (bool * string * string) :=
  flat_map (fun l => match parse_option l with
                     | Some (true, lab, t) => [(true, lab, t)]
                     | _ => []
                     end) r.

(** The explanation of a record: the line under its [@explanation] tag. *)
Fixpoint explanation_of (r : list string) : option string :=
  match r with
  | [] => None
  | l :: r' =>
      if prefix "@explanation" l
      then match r' with l' :: _ => Some l' | [] => None end
      else explanation_of r'
  end.

Definition contains (sub s : string) : bool :=
  match index 0 sub s with Some _ => true | None => false end.

Definition composed_paragraphs : list string :=
  match composed with
  | Some (File (Docx doc)) => paragraphs doc
  | _ => []
  end.

(** The text of a text file below a directory. *)
Definition text_at (p : path) (n : node) : option string :=
  match lookup p n with
  | Some (File (Text s)) => Some s
  | _ => None
  end.

(** The two texts the assembler writes. *)
Definition readme_text : string :=
  match package_dir (Text "") (Text "") (Text "") with
  | Some n => match text_at ["README.md"] n with Some s => s | None => "" end
  | None => ""
  end.

Definition questions_text : string :=
  match package_dir (Text "") (Text "") (Text "") with
  | Some n => match text_at ["QUESTIONS.md"] n with Some s => s | None => "" end
  | None => ""
  end.

(** The fifteen tags of a record, in their order. *)
Definition record_tags : list string :=
  ["@question"; "@instruction"; "@difficulty"; "@Order";
   "@option"; "@option"; "@@option"; "@option"; "@option";
   "@explanation"; ""; "@subject"; "@unit"; "@topic"; "@plusmarks"].

(** An output directory [/out] holding what the renderers and the composer
    leave there, with stand-ins for the encoded bytes. *)
Definition sample_fs : node :=
  Dir [("out", Dir [("uniform_table.png", File (Text "png1"));
                    ("rect_package_topview_8.png", File (Text "png2"));
                    ("generated_assessment.docx", File (Text "docx"))])].

(* ================================================================== *)
(** ** The layout of the packed circles *)
(* ================================================================== *)




(* ================================================================== *)
(** ** What a drawn image shows *)
(* ================================================================== *)

Definition image_texts (img : image) : list (Z * Z * string) :=
  flat_map (fun op => match op with
                      | DrawText xy text _ _ => [(xy, text)]
                      | DrawRectangle _ _ => []
                      end) (img_ops img).

Definition image_boxes (img : image) : list (Z * Z * Z * Z) :=
  flat_map (fun op => match op with
                      | DrawText _ _ _ _ => []
                      | DrawRectangle box _ => [box]
                      end) (img_ops img).


(* ================================================================== *)
(** ** The regular files of a tree *)
(* ================================================================== *)

(** The paths, from the root of a tree, of the regular files in it. *)
Fixpoint files_rel (n : node) : list path :=
  match n with
  | File _ => []
  | Dir es =>
      (fix entries (l : list (string * node)) : list path :=
         match l with
         | [] => []
         | (c, m) :: l' =>
             match m with
             | File _ => [[c]]
             | Dir _ => map (cons c) (files_rel m)
             end ++ entries l'
         end) es
  end.

(** The entry names the archive loop computes when it walks a tree that
    stands at [top]: for every file name [f] that [os.walk] reports under
    [root], the path [root / f] relative to [top]. *)
Definition arcnames (top : path) (triples : list (path * list string * list string))
    : list (outcome path) :=
  flat_map (fun '(root, _, files) =>
              map (fun f => relative_to (root // f) top) files) triples.

(** Every entry of the tree has a name. *)
Fixpoint named (n : node) : bool :=
  match n with
  | File _ => true
  | Dir es =>
      (fix entries (l : list (string * node)) : bool :=
         match l with
         | [] => true
         | (c, m) :: l' => negb (String.eqb c "") && named m && entries l'
         end) es
  end.

(** An output directory of an earlier run, with a stale file put by hand
    into the old Package Directory, an old image and an old archive. *)
Definition stale_fs : node :=
  Dir [("out",
        Dir [("uniform_table.png", File (Text "png1"));
             ("rect_package_topview_8.png", File (Text "png2"));
             ("generated_assessment.docx", File (Text "docx"));
             ("github_repo",
              Dir [("images", Dir [("old.png", File (Text "old"))]);
                   ("STALE.txt", File (Text "left behind"));
                   ("README.md", File (Text "old readme"))]);
             ("github_repo.zip",
              File (ZipArchive [("STALE.txt", Text "left behind")]))])].

(* ================================================================== *)
(** ** An output directory a run can use *)
(* ================================================================== *)



(** A tool that does nothing and reports success, and an empty root
    directory to start a first run from. *)
Definition no_tool (cmd : list string) (cwd : path) (s : node * unit)
    : Z * (node * unit) := (0, s).

Definition empty_world : world unit := mkWorld (Dir []) tt [].

(* ================================================================== *)
(** ** The publisher's plan and a model of git *)
(* ================================================================== *)

(** The command lines of the publisher in the order of its steps:
    initialise (when there is no repository yet), branch, stage, commit,
    configure the remote (list, remove when the list succeeded, add), push. *)
Definition publish_plan (has_repo list_ok : bool) (remote_url branch : string)
    : list (list string) :=
  (if has_repo then [] else [["git"; "init"]]) ++
  [["git"; "checkout"; "-B"; branch];
   ["git"; "add"; "."];
   ["git"; "commit"; "-m"; "Add generated assessment questions"];
   ["git"; "remote"]] ++
  (if list_ok then [["git"; "remote"; "remove"; "origin"]] else []) ++
  [["git"; "remote"; "add"; "origin"; remote_url];
   ["git"; "push"; "-u"; "origin"; branch]].

(** What a tool makes of a state when it runs command lines one after the
    other. *)
Definition replay {G : Type}
    (tool : list string -> path -> node * G -> Z * (node * G))
    (cwd : path) (cmds : list (list string)) (s : node * G) : node * G :=
  fold_left (fun s cmd => snd (tool cmd cwd s)) cmds s.

(** A small model of git, after its manual.  Besides the [.git] directory
    in the file system a repository has a current branch, a staging flag,
    the messages of its commits, its remotes, and what was pushed where;
    [r_unreachable] lists the remote locations a push cannot reach.  The
    return codes are git's: 128 for a fatal error, 1 when there is nothing
    to commit, 2 for a remote that does not exist, 3 for one that already
    exists. *)
Record repo : Type := mkRepo {
  r_branch : string;
  r_staged : bool;
  r_commits : list string;
  r_remotes : list (string * string);
  r_pushed : list (string * string);
  r_unreachable : list string
}.

Definition remote_url_of (name : string) (r : repo) : option string :=
  option_map snd (find (fun e => String.eqb (fst e) name) (r_remotes r)).

Definition git_tool (cmd : list string) (cwd : path) (s : node * repo)
    : Z * (node * repo) :=
  let '(fs, r) := s in
  let has_repo :=
    match lookup (cwd ++ [".git"]) fs with Some _ => true | None => false end in
  let set_branch b :=
    mkRepo b (r_staged r) (r_commits r) (r_remotes r) (r_pushed r) (r_unreachable r) in
  let set_staged st :=
    mkRepo (r_branch r) st (r_commits r) (r_remotes r) (r_pushed r) (r_unreachable r) in
  let add_commit msg :=
    mkRepo (r_branch r) false (msg :: r_commits r) (r_remotes r) (r_pushed r)
           (r_unreachable r) in
  let set_remotes rs :=
    mkRepo (r_branch r) (r_staged r) (r_commits r) rs (r_pushed r) (r_unreachable r) in
  let add_pushed url b :=
    mkRepo (r_branch r) (r_staged r) (r_commits r) (r_remotes r)
           ((url, b) :: r_pushed r) (r_unreachable r) in
  match cmd with
  | [g; a] =>
      if negb (String.eqb g "git") then (1, s)
      else if String.eqb a "init" then
        if has_repo then (0, s)
        else match alter false (cwd ++ [".git"]) (fun _ => Ok (Some (Dir []))) fs with
             | Ok fs' => (0, (fs', mkRepo "master" false [] [] [] (r_unreachable r)))
             | Raise _ => (128, s)
             end
      else if negb has_repo then (128, s)
      else if String.eqb a "remote" then (0, s)
      else (1, s)
  | [g; a; b] =>
      if negb (String.eqb g "git") then (1, s)
      else if negb has_repo then (128, s)
      else if String.eqb a "add" then (0, (fs, set_staged true))
      else (1, s)
  | [g; a; b; c] =>
      if negb (String.eqb g "git") then (1, s)
      else if negb has_repo then (128, s)
      else if String.eqb a "checkout" && String.eqb b "-B" then (0, (fs, set_branch c))
      else if String.eqb a "commit" && String.eqb b "-m" then
        if r_staged r then (0, (fs, add_commit c)) else (1, s)
      else if String.eqb a "remote" && String.eqb b "remove" then
        match remote_url_of c r with
        | Some _ =>
            (0, (fs, set_remotes
                       (filter (fun e => negb (String.eqb (fst e) c)) (r_remotes r))))
        | None => (2, s)
        end
      else (1, s)
  | [g; a; b; c; d] =>
      if negb (String.eqb g "git") then (1, s)
      else if negb has_repo then (128, s)
      else if String.eqb a "remote" && String.eqb b "add" then
        match remote_url_of c r with
        | Some _ => (3, s)
        | None => (0, (fs, set_remotes (r_remotes r ++ [(c, d)])))
        end
      else if String.eqb a "push" && String.eqb b "-u" then
        match remote_url_of c r with
        | Some url =>
            if existsb (String.eqb url) (r_unreachable r) then (128, s)
            else (0, (fs, add_pushed url d))
        | None => (128, s)
        end
      else (1, s)
  | _ => (1, s)
  end.

(** A world with the freshly assembled package and no repository in it,
    one where the package directory is a repository whose [origin] points
    somewhere else, and a remote location that cannot be reached. *)
Definition fresh_package : world repo :=
  mkWorld (snd (assemble ["out"] sample_fs))
          (mkRepo "" false [] [] [] ["https://example.invalid/none.git"]) [].

Definition package_with_origin : world repo :=
  mkWorld (snd (update false ["out"; "github_repo"; ".git"]
                  (fun _ => Ok (Some (Dir []))) (snd (assemble ["out"] sample_fs))))
          (mkRepo "master" false [] [("origin", "https://example.org/old.git")] []
                  ["https://example.invalid/none.git"]) [].

(* ================================================================== *)
(** ** Notions for the further properties *)
(* ================================================================== *)

(** Two paths diverge when, after a common start, they go on with
    different components: neither leads into what the other leads to. *)
Definition diverge (p q : path) : Prop :=
  exists l a b p' q', p = l ++ a :: p' /\ q = l ++ b :: q' /\ a <> b.

(** A computation keeps the paths of [P]: whatever its outcome, each of
    them leads afterwards to what it led to before. *)
Definition keeps {A : Type} (P : path -> Prop) (m : M node A) : Prop :=
  forall fs r fs', m fs = (r, fs') ->
  forall q, P q -> lookup q fs' = lookup q fs.

(** The same for a computation of a whole run, which moreover runs no
    child process and leaves the state of the tool alone. *)
Definition quiet {G A : Type} (P : path -> Prop) (m : M (world G) A) : Prop :=
  forall w r w', m w = (r, w') ->
  w_calls w' = w_calls w /\ w_git w' = w_git w /\
  forall q, P q -> lookup q (w_fs w') = lookup q (w_fs w).

(** An output directory in which a regular file stands where the Package
    Directory goes, and one in which a directory stands where the archive
    goes. *)
Definition blocked_fs : node :=
  Dir [("out", Dir [("uniform_table.png", File (Text "png1"));
                    ("github_repo", File (Text "not a directory"))])].

Definition zip_dir_fs : node :=
  Dir [("out",
        Dir [("uniform_table.png", File (Text "png1"));
             ("rect_package_topview_8.png", File (Text "png2"));
             ("generated_assessment.docx", File (Text "docx"));
             ("github_repo", Dir [("STALE.txt", File (Text "left behind"))]);
             ("github_repo.zip", Dir [("kept.txt", File (Text "kept"))])])].

(** Going down [p] from [n] one meets no regular file: the directories of
    [p] that are missing can be made. *)
Fixpoint creatable (p : path) (n : node) : bool :=
  match n with
  | File _ => false
  | Dir es =>
      match p with
      | [] => true
      | c :: p' =>
          match alist_get c es with
          | Some m => creatable p' m
          | None => true
          end
      end
  end.


(** A box lies within a canvas of the given size; two boxes are apart, one
    wholly to the left of or above the other; and a relation holds of
    every two elements of a list, the earlier against the later. *)
Definition box_in_canvas (size : Z * Z) (b : Z * Z * Z * Z) : bool :=
  let '(x0, y0, x1, y1) := b in
  (0 <=? x0) && (x0 <? x1) && (x1 <=? fst size) &&
  (0 <=? y0) && (y0 <? y1) && (y1 <=? snd size).

Definition boxes_apart (b1 b2 : Z * Z * Z * Z) : bool :=
  let '(x0, y0, x1, y1) := b1 in
  let '(u0, v0, u1, v1) := b2 in
  (x1 <? u0) || (u1 <? x0) || (y1 <? v0) || (v1 <? y0).

Fixpoint pairwise {A : Type} (r : A -> A -> bool) (l : list A) : bool :=
  match l with
  | [] => true
  | x :: l' => forallb (r x) l' && pairwise r l'
  end.

(* ================================================================== *)
(** ** Theorems *)
(* ================================================================== *)

(** *** Directory entries *)

Lemma alist_get_set_same k v es : alist_get k (alist_set k v es) = Some v.
Proof.
  induction es as [|[k' v'] es IH]; simpl.
  - now rewrite String.eqb_refl.
  - destruct (String.eqb k k') eqn:E; simpl.
    + now rewrite String.eqb_refl.
    + now rewrite E.
Qed.

Lemma alist_get_set_other k k' v es :
  k <> k' -> alist_get k' (alist_set k v es) = alist_get k' es.
Proof.
  intros Hne. induction es as [|[k0 v0] es IH]; simpl.
  - apply String.eqb_neq in Hne. now rewrite String.eqb_sym, Hne.
  - destruct (String.eqb k k0) eqn:E; simpl.
    + apply String.eqb_eq in E. subst k0.
      assert (String.eqb k' k = false) as ->
        by (rewrite String.eqb_sym; now apply String.eqb_neq).
      reflexivity.
    + now rewrite IH.
Qed.

Lemma alist_get_del_same k es : alist_get k (alist_del k es) = None.
Proof.
  induction es as [|[k' v'] es IH]; simpl; [reflexivity|].
  destruct (String.eqb k k') eqn:E; simpl; [assumption|].
  now rewrite E.
Qed.

Lemma alist_get_del_other k k' es :
  k <> k' -> alist_get k' (alist_del k es) = alist_get k' es.
Proof.
  intros Hne. induction es as [|[k0 v0] es IH]; simpl; [reflexivity|].
  destruct (String.eqb k k0) eqn:E; simpl.
  - apply String.eqb_eq in E. subst k0.
    assert (String.eqb k' k = false) as ->
      by (rewrite String.eqb_sym; now apply String.eqb_neq).
    assumption.
  - now rewrite IH.
Qed.

Lemma alist_get_put_same k o es : alist_get k (alist_put k o es) = o.
Proof.
  destruct o; simpl; [apply alist_get_set_same | apply alist_get_del_same].
Qed.

Lemma alist_get_put_other k k' o es :
  k <> k' -> alist_get k' (alist_put k o es) = alist_get k' es.
Proof.
  destruct o; simpl; [apply alist_get_set_other | apply alist_get_del_other].
Qed.

Lemma alist_set_set k v v' es :
  alist_set k v (alist_set k v' es) = alist_set k v es.
Proof.
  induction es as [|[k0 v0] es IH]; simpl.
  - now rewrite String.eqb_refl.
  - destruct (String.eqb k k0) eqn:E; simpl.
    + now rewrite String.eqb_refl.
    + now rewrite E, IH.
Qed.

Lemma alist_del_absent k es : alist_get k es = None -> alist_del k es = es.
Proof.
  induction es as [|[k0 v0] es IH]; simpl; [reflexivity|].
  destruct (String.eqb k k0); [discriminate|].
  intros H. now rewrite IH.
Qed.

(** *** Paths into the tree *)

Lemma lookup_app p q n :
  lookup (p ++ q) n =
  match lookup p n with Some m => lookup q m | None => None end.
Proof.
  revert n. induction p as [|c p IH]; intros n; simpl; [reflexivity|].
  destruct n as [?|es]; [reflexivity|].
  destruct (alist_get c es); [apply IH | reflexivity].
Qed.

Lemma lookup_replace p m m' n :
  lookup p n = Some m -> lookup p (replace p m' n) = Some m'.
Proof.
  revert n. induction p as [|c p IH]; intros n; simpl; [reflexivity|].
  destruct n as [?|es]; [discriminate|].
  destruct (alist_get c es) as [m0|] eqn:E; [|discriminate].
  intros H. simpl. rewrite alist_get_set_same. now apply IH.
Qed.

Lemma alter_cons2 b c c' r f es :
  alter b (c :: c' :: r) f (Dir es) =
  match alist_get c es with
  | Some m =>
      match alter b (c' :: r) f m with
      | Ok m' => Ok (Dir (alist_set c m' es))
      | Raise e => Raise e
      end
  | None =>
      if b then
        match alter b (c' :: r) f (Dir []) with
        | Ok m' => Ok (Dir (alist_set c m' es))
        | Raise e => Raise e
        end
      else Raise FileNotFoundError
  end.
Proof. reflexivity. Qed.

Lemma alter_under b p q f n m :
  lookup p n = Some m -> q <> [] ->
  alter b (p ++ q) f n =
  match alter b q f m with
  | Ok m' => Ok (replace p m' n)
  | Raise e => Raise e
  end.
Proof.
  intros Hl Hq. revert n Hl. induction p as [|c p IH]; intros n Hl.
  - simpl in *. injection Hl as ->. now destruct (alter b q f m).
  - cbn [lookup] in Hl. destruct n as [?|es]; [discriminate|].
    destruct (alist_get c es) as [m0|] eqn:E; [|discriminate].
    specialize (IH _ Hl). cbn [app replace]. rewrite E.
    destruct (p ++ q) as [|c' r] eqn:Epq.
    + apply app_eq_nil in Epq. tauto.
    + rewrite alter_cons2, E, IH.
      now destruct (alter b q f m).
Qed.

Lemma alter_dir b q f es m :
  alter b q f (Dir es) = Ok m -> exists es', m = Dir es'.
Proof.
  destruct q as [|c q]; simpl; [discriminate|].
  destruct q as [|c' q].
  - destruct (f (alist_get c es)); [|discriminate].
    intros [= <-]. eauto.
  - destruct (alist_get c es).
    + destruct (alter b (c' :: q) f n); [|discriminate]. intros [= <-]. eauto.
    + destruct b; [|discriminate].
      destruct (alter true (c' :: q) f (Dir [])); [|discriminate].
      intros [= <-]. eauto.
Qed.

(** *** One step of a computation below a known directory *)

Lemma bind_eq {S A B : Type} (m : M S A) (k : A -> M S B) (s : S) :
  bind m k s =
  match m s with
  | (Ok a, s') => k a s'
  | (Raise e, s') => (Raise e, s')
  end.
Proof. reflexivity. Qed.

Lemma exists_under p q fs m :
  lookup p fs = Some m ->
  exists_ (p ++ q) fs =
  (Ok (match lookup q m with Some _ => true | None => false end), fs).
Proof. intros H. unfold exists_. now rewrite lookup_app, H. Qed.

Lemma isdir_under p q fs m :
  lookup p fs = Some m ->
  isdir (p ++ q) fs =
  (Ok (match lookup q m with Some (Dir _) => true | _ => false end), fs).
Proof. intros H. unfold isdir. now rewrite lookup_app, H. Qed.

Lemma read_file_under p q fs m :
  lookup p fs = Some m ->
  read_file (p ++ q) fs =
  match lookup q m with
  | Some (File c) => (Ok c, fs)
  | Some (Dir _) => (Raise IsADirectoryError, fs)
  | None => (Raise FileNotFoundError, fs)
  end.
Proof. intros H. unfold read_file. now rewrite lookup_app, H. Qed.

Lemma update_under b p q f fs m :
  lookup p fs = Some m -> q <> [] ->
  update b (p ++ q) f fs =
  match alter b q f m with
  | Ok m' => (Ok tt, replace p m' fs)
  | Raise e => (Raise e, fs)
  end.
Proof.
  intros H Hq. unfold update.
  destruct (p ++ q) eqn:E.
  - apply app_eq_nil in E. tauto.
  - rewrite <- E, (alter_under b p q f fs m H Hq).
    now destruct (alter b q f m).
Qed.

Lemma name_snoc p s : name (p ++ [s]) = s.
Proof. apply last_last. Qed.

Lemma relative_to_app r q : relative_to (r ++ q) r = Ok q.
Proof.
  induction r as [|c r IH]; simpl; [reflexivity|].
  now rewrite String.eqb_refl.
Qed.


Create Rewrite HintDb alist.
#[local] Hint Rewrite alist_get_set_same alist_get_del_same alist_set_set : alist.
#[local] Hint Rewrite alist_get_set_other alist_get_del_other
  using (apply String.eqb_neq; reflexivity) : alist.

Lemma shutil_copy_under p qs qd fs m c :
  lookup p fs = Some m ->
  lookup qs m = Some (File c) ->
  match lookup qd m with Some (Dir _) => False | _ => True end ->
  qs <> qd -> qd <> [] ->
  shutil_copy (p ++ qs) (p ++ qd) fs =
  match alter false qd (write_to c) m with
  | Ok m' => (Ok tt, replace p m' fs)
  | Raise e => (Raise e, fs)
  end.
Proof.
  intros Hp Hs Hd Hne Hq. unfold shutil_copy.
  rewrite bind_eq, (isdir_under _ _ _ _ Hp).
  assert (match lookup qd m with Some (Dir _) => true | _ => false end = false) as ->
    by (destruct (lookup qd m) as [[?|?]|]; tauto).
  rewrite bind_eq, (read_file_under _ _ _ _ Hp), Hs.
  rewrite bind_eq.
  destruct (list_eq_dec string_dec (p ++ qs) (p ++ qd)) as [E|_].
  - apply app_inv_head in E. contradiction.
  - unfold ret at 1. unfold write_file.
    now rewrite (update_under _ _ _ _ _ _ Hp Hq).
Qed.

Ltac advance Hb :=
  match goal with
  | |- context [replace ?b ?m ?f] =>
      let H := fresh "Hb" in
      let fs' := fresh "fs" in
      pose proof (lookup_replace b _ m f Hb) as H;
      set (fs' := replace b m f) in *; clearbody fs';
      clear Hb; rename H into Hb
  end.

Ltac alist_norm :=
  repeat (progress (cbn [lookup alter alist_get alist_put alist_set alist_del
                         String.eqb Ascii.eqb Bool.eqb write_to];
                    autorewrite with alist)).

Ltac step_update Hb :=
  rewrite bind_eq; unfold mkdir, write_file;
  rewrite (update_under _ _ _ _ _ _ Hb) by discriminate;
  alist_norm.

Ltac step_copy Hb c H :=
  rewrite bind_eq, (shutil_copy_under _ _ _ _ _ c Hb);
  [ alist_norm
  | alist_norm; now rewrite H
  | alist_norm; exact I
  | discriminate
  | discriminate ].

Lemma zf_write_under p qz qf arc fs m c ents :
  lookup p fs = Some m ->
  lookup qf m = Some (File c) ->
  lookup qz m = Some (File (ZipArchive ents)) ->
  qz <> [] ->
  zf_write (p ++ qz) (p ++ qf) arc fs =
  match alter false qz (write_to (ZipArchive (ents ++ [(arc, c)]))) m with
  | Ok m' => (Ok tt, replace p m' fs)
  | Raise e => (Raise e, fs)
  end.
Proof.
  intros Hp Hf Hz Hq. unfold zf_write.
  rewrite bind_eq, (read_file_under _ _ _ _ Hp), Hf.
  rewrite bind_eq, (read_file_under _ _ _ _ Hp), Hz.
  unfold write_file. now rewrite (update_under _ _ _ _ _ _ Hp Hq).
Qed.

Lemma relative_to_snoc b c q : relative_to (b ++ c :: q) (b ++ [c]) = Ok q.
Proof.
  change (c :: q) with ([c] ++ q). rewrite app_assoc. apply relative_to_app.
Qed.

Ltac step_zip Hb :=
  erewrite (zf_write_under _ _ _ _ _ _ _ _ Hb);
  [ alist_norm
  | alist_norm; reflexivity
  | alist_norm; reflexivity
  | discriminate ].

Lemma shutil_copy_fails_under p qs qd fs m :
  lookup p fs = Some m ->
  (forall c, lookup qs m <> Some (File c)) ->
  exists e, shutil_copy (p ++ qs) (p ++ qd) fs = (Raise e, fs).
Proof.
  intros Hp Hs. unfold shutil_copy.
  rewrite bind_eq, (isdir_under _ _ _ _ Hp).
  rewrite bind_eq, (read_file_under _ _ _ _ Hp).
  destruct (lookup qs m) as [[c|d]|]; eauto.
  now destruct (Hs c).
Qed.

Ltac fail_copy Hb Hbad :=
  rewrite bind_eq;
  match goal with
  | |- context [shutil_copy (?b ++ ?qs) (?b ++ ?qd) ?f] =>
      let e := fresh "e" in
      let E := fresh "E" in
      destruct (shutil_copy_fails_under b qs qd f _ Hb) as (e & E);
      [ intros ?c; alist_norm;
        match goal with
        | |- context [alist_get ?k ?es] =>
            destruct (alist_get k es) as [[?c|?d]|] eqn:?;
            [ intros [= <-]; eapply Hbad; reflexivity | discriminate | discriminate ]
        end
      | rewrite E; eexists; reflexivity ]
  end.

(** The assembler in an existing output directory, step by step: it stops
    at the first of the three files that is not there as a regular file,
    stops at the old archive when that is a directory, and completes
    otherwise. *)
Lemma make_github_folder_total base fs es :
  lookup base fs = Some (Dir es) ->
  match alist_get "github_repo" es with Some (File _) => False | _ => True end ->
  ((forall c, alist_get "uniform_table.png" es <> Some (File c)) ->
   exists e, fst (make_github_folder base (base ++ ["uniform_table.png"])
            (base ++ ["rect_package_topview_8.png"])
            (base ++ ["generated_assessment.docx"]) fs) = Raise e) /\
  (forall c1, alist_get "uniform_table.png" es = Some (File c1) ->
  ((forall c, alist_get "rect_package_topview_8.png" es <> Some (File c)) ->
   exists e, fst (make_github_folder base (base ++ ["uniform_table.png"])
            (base ++ ["rect_package_topview_8.png"])
            (base ++ ["generated_assessment.docx"]) fs) = Raise e) /\
  (forall c2, alist_get "rect_package_topview_8.png" es = Some (File c2) ->
  ((forall c, alist_get "generated_assessment.docx" es <> Some (File c)) ->
   exists e, fst (make_github_folder base (base ++ ["uniform_table.png"])
            (base ++ ["rect_package_topview_8.png"])
            (base ++ ["generated_assessment.docx"]) fs) = Raise e) /\
  (forall cd, alist_get "generated_assessment.docx" es = Some (File cd) ->
  (forall dz, alist_get "github_repo.zip" es = Some (Dir dz) ->
   exists fs' es',
     make_github_folder base (base ++ ["uniform_table.png"])
            (base ++ ["rect_package_topview_8.png"])
            (base ++ ["generated_assessment.docx"]) fs
     = (Raise IsADirectoryError, fs') /\
     lookup base fs' = Some (Dir es') /\
     alist_get "github_repo" es' = package_dir c1 c2 cd /\
     forall k, k <> "github_repo" -> alist_get k es' = alist_get k es) /\
  (match alist_get "github_repo.zip" es with Some (Dir _) => False | _ => True end ->
   exists fs' es',
    make_github_folder base (base ++ ["uniform_table.png"])
            (base ++ ["rect_package_topview_8.png"])
            (base ++ ["generated_assessment.docx"]) fs
    = (Ok (base ++ ["github_repo"], base ++ ["github_repo.zip"]), fs') /\
    lookup base fs' = Some (Dir es') /\
    alist_get "github_repo" es' = package_dir c1 c2 cd /\
    alist_get "github_repo.zip" es' = package_zip c1 c2 cd /\
    forall k, k <> "github_repo" -> k <> "github_repo.zip" ->
              alist_get k es' = alist_get k es)))).
Proof.
  intros Hb Hrepo.
  unfold make_github_folder.
  rewrite !name_snoc.
  unfold joinpath. cbn [String.eqb Ascii.eqb Bool.eqb].
  rewrite <- !app_assoc. cbn [app].
  match goal with |- context [write_file _ (Text ?t) ;; write_file _ (Text ?u) ;; _] =>
    set (readme := Text t); set (questions := Text u) end.
  (* the old directory goes *)
  rewrite bind_eq, (exists_under _ _ _ _ Hb). cbn [lookup].
  assert (exists fs1,
    lookup base fs1 = Some (Dir (alist_del "github_repo" es)) /\
    forall k : unit -> M node (path * path),
    bind (when match match alist_get "github_repo" es with Some m => Some m | None => None end
               with Some _ => true | None => false end
            (rmtree (base ++ ["github_repo"]))) k fs = k tt fs1)
    as (fs1 & Hb1 & E1).
  { destruct (alist_get "github_repo" es) as [[?|d]|] eqn:E; [contradiction| |].
    - eexists. split; [apply (lookup_replace _ _ _ _ Hb)|].
      intros k. rewrite bind_eq.
      unfold when, rmtree. rewrite (update_under _ _ _ _ _ _ Hb) by discriminate.
      cbn [alter]. rewrite E. reflexivity.
    - exists fs. split; [now rewrite (alist_del_absent _ _ E)|]. reflexivity. }
  rewrite E1. clear E1 Hb. revert Hb1.
  generalize fs1 as fs0. clear fs fs1. intros fs Hb.
  (* the new directory and its images *)
  rewrite bind_eq. unfold mkdir.
  rewrite (update_under _ _ _ _ _ _ Hb) by discriminate.
  cbn [alter]. autorewrite with alist. cbn [alist_put].
  advance Hb.
  step_update Hb. advance Hb.
  split; [intros Hbad; fail_copy Hb Hbad | intros c1 H1].
  step_copy Hb c1 H1. advance Hb.
  split; [intros Hbad; fail_copy Hb Hbad | intros c2 H2].
  step_copy Hb c2 H2. advance Hb.
  step_update Hb. advance Hb.
  step_update Hb. advance Hb.
  split; [intros Hbad; fail_copy Hb Hbad | intros cd Hd].
  step_copy Hb cd Hd. advance Hb.
  (* the old archive goes *)
  rewrite bind_eq, (exists_under _ _ _ _ Hb). alist_norm.
  split.
  { intros dz Ez. rewrite Ez. rewrite bind_eq. unfold when, unlink.
    rewrite (update_under _ _ _ _ _ _ Hb) by discriminate.
    alist_norm. rewrite Ez. eexists _, _. split; [reflexivity|].
    split; [exact Hb|]. split.
    - alist_norm. subst readme questions. reflexivity.
    - intros k Hk.
      rewrite alist_get_set_other, alist_get_del_other by congruence.
      reflexivity. }
  intros Hzip.
  match type of Hb with _ = Some (Dir ?es5) =>
  assert (exists fs7,
    lookup base fs7 = Some (Dir (alist_del "github_repo.zip" es5)) /\
    forall k : unit -> M node (path * path),
    bind (when match match alist_get "github_repo.zip" es with Some m => Some m | None => None end
               with Some _ => true | None => false end
            (unlink (base ++ ["github_repo.zip"]))) k fs6 = k tt fs7)
    as (fs7 & Hb7 & E7) end.
  { destruct (alist_get "github_repo.zip" es) as [[z|?]|] eqn:E; [|contradiction|].
    - eexists. split; [apply (lookup_replace _ _ _ _ Hb)|].
      intros k. rewrite bind_eq.
      unfold when, unlink. rewrite (update_under _ _ _ _ _ _ Hb) by discriminate.
      alist_norm. rewrite E. reflexivity.
    - exists fs6. split; [|reflexivity].
      rewrite alist_del_absent; [assumption|]. alist_norm. assumption. }
  rewrite E7. clear E7 Hb. rename Hb7 into Hb.
  (* the new archive *)
  step_update Hb. advance Hb.
  rewrite bind_eq. unfold os_walk. rewrite lookup_app, Hb. alist_norm.
  cbn [walk subdirs nondirs filter map fst snd app for_each].
  unfold joinpath. cbn [String.eqb Ascii.eqb Bool.eqb].
  rewrite !bind_eq. rewrite <- !app_assoc. cbn [app].
  unfold lift_outcome. rewrite !relative_to_snoc.
  cbn [str_rel String.concat String.append].
  do 3 (rewrite ?bind_eq; cbv beta; cbn [str_rel String.concat String.append];
        step_zip Hb; advance Hb).
  unfold ret at 1. cbv beta iota.
  do 2 (rewrite ?bind_eq; cbv beta; cbn [str_rel String.concat String.append];
        step_zip Hb; advance Hb).
  unfold ret. cbv beta iota.
  eexists _, _. split; [reflexivity|]. split; [exact Hb|].
  split; [|split].
  - alist_norm. subst readme questions. reflexivity.
  - alist_norm. subst readme questions. reflexivity.
  - intros k Hk1 Hk2. 
    rewrite alist_get_set_other, alist_get_del_other, alist_get_set_other,
      alist_get_del_other by congruence.
    reflexivity.
Qed.

Lemma make_github_folder_at base fs es c1 c2 cd :
  lookup base fs = Some (Dir es) ->
  alist_get "uniform_table.png" es = Some (File c1) ->
  alist_get "rect_package_topview_8.png" es = Some (File c2) ->
  alist_get "generated_assessment.docx" es = Some (File cd) ->
  match alist_get "github_repo" es with Some (File _) => False | _ => True end ->
  match alist_get "github_repo.zip" es with Some (Dir _) => False | _ => True end ->
  exists fs' es',
    make_github_folder base (base ++ ["uniform_table.png"])
      (base ++ ["rect_package_topview_8.png"])
      (base ++ ["generated_assessment.docx"]) fs
    = (Ok (base ++ ["github_repo"], base ++ ["github_repo.zip"]), fs') /\
    lookup base fs' = Some (Dir es') /\
    alist_get "github_repo" es' = package_dir c1 c2 cd /\
    alist_get "github_repo.zip" es' = package_zip c1 c2 cd /\
    forall k, k <> "github_repo" -> k <> "github_repo.zip" ->
              alist_get k es' = alist_get k es.
Proof.
  intros Hb H1 H2 Hd Hrepo Hzip.
  destruct (make_github_folder_total base fs es Hb Hrepo) as (_ & T1).
  destruct (T1 c1 H1) as (_ & T2). destruct (T2 c2 H2) as (_ & T3).
  destruct (T3 cd Hd) as (_ & T4). exact (T4 Hzip).
Qed.

(** It stops at once when a regular file stands where the Package
    Directory goes. *)
Lemma make_github_folder_repo_is_file base img1 img2 docx_path fs es c :
  lookup base fs = Some (Dir es) ->
  alist_get "github_repo" es = Some (File c) ->
  make_github_folder base img1 img2 docx_path fs = (Raise NotADirectoryError, fs).
Proof.
  intros Hb E. unfold make_github_folder.
  unfold joinpath. cbn [String.eqb Ascii.eqb Bool.eqb].
  rewrite bind_eq, (exists_under _ _ _ _ Hb). cbn [lookup]. rewrite E.
  rewrite bind_eq. unfold when, rmtree.
  rewrite (update_under _ _ _ _ _ _ Hb) by discriminate.
  cbn [alter]. now rewrite E.
Qed.

(** *** What a write leaves behind *)

Lemma alter_lookup b p f n n' :
  alter b p f n = Ok n' -> exists o r, f o = Ok r /\ lookup p n' = r.
Proof.
  revert n n'. induction p as [|c p IH]; intros n n'; [discriminate|].
  destruct n as [?|es]; [discriminate|].
  destruct p as [|c' q].
  - cbn [alter]. destruct (f (alist_get c es)) as [r|] eqn:E; [|discriminate].
    intros [= <-]. exists (alist_get c es), r. split; [assumption|].
    cbn [lookup]. rewrite alist_get_put_same. now destruct r.
  - rewrite alter_cons2.
    destruct (alist_get c es) as [m|].
    + destruct (alter b (c' :: q) f m) as [m'|] eqn:E; [|discriminate].
      intros [= <-]. destruct (IH _ _ E) as (o & r & Hf & Hl).
      exists o, r. split; [assumption|].
      cbn [lookup] in *. now rewrite alist_get_set_same.
    + destruct b; [|discriminate].
      destruct (alter true (c' :: q) f (Dir [])) as [m'|] eqn:E; [|discriminate].
      intros [= <-]. destruct (IH _ _ E) as (o & r & Hf & Hl).
      exists o, r. split; [assumption|].
      cbn [lookup] in *. now rewrite alist_get_set_same.
Qed.

Lemma write_file_lookup p c fs fs' :
  write_file p c fs = (Ok tt, fs') -> lookup p fs' = Some (File c).
Proof.
  unfold write_file, update. destruct p as [|k p].
  - destruct fs as [c0|es]; cbn; [|discriminate]. now intros [= <-].
  - destruct (alter false (k :: p) (write_to c) fs) as [n'|] eqn:E; [|discriminate].
    intros [= <-]. destruct (alter_lookup _ _ _ _ _ E) as (o & r & Hf & Hl).
    rewrite Hl. destruct o as [[?|?]|]; cbn in Hf; congruence.
Qed.

(** Every document the composer saves has the same paragraphs. *)
Lemma create_docx_saved docx_path img1 img2 fs fs' :
  create_docx docx_path img1 img2 fs = (Ok tt, fs') ->
  exists doc,
    lookup docx_path fs' = Some (File (Docx doc)) /\
    paragraphs doc = composed_paragraphs.
Proof.
  unfold create_docx. rewrite bind_eq. unfold add_picture at 1.
  rewrite bind_eq. destruct (read_file img1 fs) as [[c1|e1] fs1] eqn:E1.
  2:{ discriminate. }
  unfold ret at 1. rewrite bind_eq. unfold add_picture at 1. rewrite bind_eq.
  destruct (read_file img2 fs1) as [[c2|e2] fs2] eqn:E2.
  2:{ discriminate. }
  unfold ret at 1. intros H. apply write_file_lookup in H.
  eexists. split; [exact H|]. reflexivity.
Qed.

(** *** The assembler in a ready output directory *)

Lemma lookup_snoc_dir base k fs n :
  lookup (base ++ [k]) fs = Some n ->
  exists es, lookup base fs = Some (Dir es) /\ alist_get k es = Some n.
Proof.
  rewrite lookup_app. destruct (lookup base fs) as [[?|es]|]; try discriminate.
  cbn [lookup]. destruct (alist_get k es) eqn:E; [|discriminate].
  intros [= <-]. eauto.
Qed.

Lemma lookup_snoc base k fs es :
  lookup base fs = Some (Dir es) -> lookup (base ++ [k]) fs = alist_get k es.
Proof.
  intros H. rewrite lookup_app, H. cbn [lookup]. now destruct (alist_get k es).
Qed.

Lemma assemble_spec base fs c1 c2 cd :
  assembler_ready base fs c1 c2 cd ->
  exists fs',
    assemble base fs
    = (Ok (base ++ ["github_repo"], base ++ ["github_repo.zip"]), fs') /\
    lookup (base ++ ["github_repo"]) fs' = package_dir c1 c2 cd /\
    lookup (base ++ ["github_repo.zip"]) fs' = package_zip c1 c2 cd /\
    forall k, k <> "github_repo" -> k <> "github_repo.zip" ->
              lookup (base ++ [k]) fs' = lookup (base ++ [k]) fs.
Proof.
  intros (H1 & H2 & Hd & Hrepo & Hzip).
  destruct (lookup_snoc_dir _ _ _ _ H1) as (es & Hb & E1).
  rewrite (lookup_snoc _ _ _ _ Hb) in H2.
  rewrite (lookup_snoc _ _ _ _ Hb) in Hd.
  assert (Hrepo' : forall c, alist_get "github_repo" es <> Some (File c))
    by (intros c; rewrite <- (lookup_snoc _ _ _ _ Hb); apply Hrepo).
  assert (Hzip' : forall d, alist_get "github_repo.zip" es <> Some (Dir d))
    by (intros d; rewrite <- (lookup_snoc _ _ _ _ Hb); apply Hzip).
  clear Hrepo Hzip. rename Hrepo' into Hrepo, Hzip' into Hzip.
  destruct (make_github_folder_at base fs es c1 c2 cd Hb E1 H2 Hd)
    as (fs' & es' & Hrun & Hb' & Hp & Hz & Hk).
  - destruct (alist_get "github_repo" es) as [[c|?]|]; try exact I.
    now apply (Hrepo c).
  - destruct (alist_get "github_repo.zip" es) as [[?|d]|]; try exact I.
    now apply (Hzip d).
  - exists fs'. split; [exact Hrun|].
    rewrite !(lookup_snoc _ _ _ _ Hb'). repeat split; try assumption.
    intros k Hk1 Hk2.
    now rewrite (lookup_snoc _ _ _ _ Hb'), (lookup_snoc _ _ _ _ Hb), Hk.
Qed.

(** The assembler completes in no other state. *)

Lemma alter_creates c f p n n' :
  lookup p n = None ->
  alter true (p ++ [c]) f n = Ok n' ->
  exists r, f None = Ok r /\ lookup p n' = Some (Dir (alist_put c r [])).
Proof.
  revert n n'. induction p as [|k p IH]; intros n n' Hl; [discriminate|].
  cbn [lookup] in Hl. destruct n as [?|es]; [discriminate|].
  cbn [app].
  assert (Hnew : forall m',
            alter true (p ++ [c]) f (Dir []) = Ok m' ->
            exists r, f None = Ok r /\ lookup p m' = Some (Dir (alist_put c r []))).
  { intros m' Hm. destruct p as [|k' p'].
    - cbn [app alter alist_get] in Hm.
      destruct (f None) as [r|]; [|discriminate]. injection Hm as <-. eauto.
    - apply (IH (Dir []) m'); [reflexivity|exact Hm]. }
  destruct (p ++ [c]) as [|c' q] eqn:Epc.
  { apply app_eq_nil in Epc. destruct Epc as [_ Epc]. discriminate Epc. }
  rewrite alter_cons2. destruct (alist_get k es) as [m0|] eqn:Ek.
  - destruct (alter true (c' :: q) f m0) as [m0'|] eqn:E; [|discriminate].
    intros [= <-].
    destruct (IH _ _ Hl E) as (r & Hf & Hr). exists r. split; [exact Hf|].
    cbn [lookup]. now rewrite alist_get_set_same.
  - destruct (alter true (c' :: q) f (Dir [])) as [m'|] eqn:E; [|discriminate].
    intros [= <-].
    destruct (Hnew _ eq_refl) as (r & Hf & Hr). exists r. split; [exact Hf|].
    cbn [lookup]. now rewrite alist_get_set_same.
Qed.

Lemma assemble_base_missing base fs :
  lookup base fs = None -> exists e fs', assemble base fs = (Raise e, fs').
Proof.
  intros Hl. unfold assemble, make_github_folder.
  rewrite !name_snoc.
  unfold joinpath. cbn [String.eqb Ascii.eqb Bool.eqb].
  rewrite <- !app_assoc. cbn [app].
  rewrite bind_eq. unfold exists_ at 1. rewrite lookup_app, Hl.
  rewrite bind_eq. unfold when at 1, ret at 1.
  rewrite bind_eq. unfold mkdir at 1, update.
  destruct (base ++ ["github_repo"]) as [|k q] eqn:Eb.
  { apply app_eq_nil in Eb. destruct Eb as [_ Eb]. discriminate Eb. }
  rewrite <- Eb.
  match goal with |- context [alter true _ ?f fs] =>
    destruct (alter true (base ++ ["github_repo"]) f fs) as [fs1|e] eqn:E end;
    [|eauto].
  destruct (alter_creates _ _ _ _ _ Hl E) as (r & Hf & Hb).
  injection Hf as <-. cbn [alist_put alist_set] in Hb.
  step_update Hb. advance Hb.
  rewrite bind_eq.
  match goal with
  | |- context [shutil_copy (?b ++ ?qs) (?b ++ ?qd) ?f] =>
      destruct (shutil_copy_fails_under b qs qd f _ Hb) as (e & ->);
      [intros c; alist_norm; discriminate | eauto]
  end.
Qed.

Lemma assemble_base_is_file base fs c :
  lookup base fs = Some (File c) ->
  exists e fs', assemble base fs = (Raise e, fs').
Proof.
  intros Hb. unfold assemble, make_github_folder.
  unfold joinpath. cbn [String.eqb Ascii.eqb Bool.eqb].
  rewrite bind_eq, (exists_under _ _ _ _ Hb). cbn [lookup].
  rewrite bind_eq. unfold when at 1, ret at 1.
  rewrite bind_eq. unfold mkdir at 1.
  rewrite (update_under _ _ _ _ _ _ Hb) by discriminate.
  cbn [alter]. eauto.
Qed.

Lemma assemble_only_if_ready base fs r fs' :
  assemble base fs = (Ok r, fs') ->
  exists c1 c2 cd, assembler_ready base fs c1 c2 cd.
Proof.
  intros Hrun.
  destruct (lookup base fs) as [[c|es]|] eqn:Hb.
  - destruct (assemble_base_is_file _ _ _ Hb) as (e & fs1 & E). congruence.
  - assert (Hrepo : match alist_get "github_repo" es with
                    | Some (File _) => False | _ => True end).
    { destruct (alist_get "github_repo" es) as [[c|?]|] eqn:E; try exact I.
      unfold assemble in Hrun.
      rewrite (make_github_folder_repo_is_file _ _ _ _ _ _ _ Hb E) in Hrun.
      discriminate Hrun. }
    unfold assemble in Hrun.
    destruct (make_github_folder_total _ _ _ Hb Hrepo) as (F1 & T1).
    rewrite Hrun in F1, T1. cbn [fst] in F1, T1.
    destruct (alist_get "uniform_table.png" es) as [[c1|?]|] eqn:E1;
      try (destruct F1 as (e & F1); [intros c; discriminate | discriminate F1]).
    destruct (T1 c1 eq_refl) as (F2 & T2).
    destruct (alist_get "rect_package_topview_8.png" es) as [[c2|?]|] eqn:E2;
      try (destruct F2 as (e & F2); [intros c; discriminate | discriminate F2]).
    destruct (T2 c2 eq_refl) as (F3 & T3).
    destruct (alist_get "generated_assessment.docx" es) as [[cd|?]|] eqn:Ed;
      try (destruct F3 as (e & F3); [intros c; discriminate | discriminate F3]).
    destruct (T3 cd eq_refl) as (F4 & _).
    exists c1, c2, cd. unfold assembler_ready.
    rewrite !(lookup_snoc _ _ _ _ Hb). repeat split; try assumption.
    + intros c E. now rewrite E in Hrepo.
    + intros d E. destruct (F4 d E) as (fx & ex & Hf & _). discriminate Hf.
  - destruct (assemble_base_missing _ _ Hb) as (e & fs1 & E). congruence.
Qed.


Lemma package_dir_shape c1 c2 cd :
  package_dir c1 c2 cd =
  Some (Dir [("images", Dir [("uniform_table.png", File c1);
                             ("rect_package_topview_8.png", File c2)]);
             ("README.md", File (Text readme_text));
             ("QUESTIONS.md", File (Text questions_text));
             ("generated_assessment.docx", File cd)]).
Proof. reflexivity. Qed.

Lemma lookup_app_some p q n m :
  lookup p n = Some m -> lookup (p ++ q) n = lookup q m.
Proof. intros H. now rewrite lookup_app, H. Qed.

(** The markdown file of a run in a ready directory. *)
Lemma assemble_questions base fs c1 c2 cd :
  assembler_ready base fs c1 c2 cd ->
  exists fs' r,
    assemble base fs = (Ok r, fs') /\
    text_at (base ++ ["github_repo"; "QUESTIONS.md"]) fs' = Some questions_text /\
    text_at (base ++ ["github_repo"; "README.md"]) fs' = Some readme_text.
Proof.
  intros H. destruct (assemble_spec _ _ _ _ _ H) as (fs' & Hrun & Hp & _).
  exists fs', (base ++ ["github_repo"], base ++ ["github_repo.zip"]).
  split; [exact Hrun|]. rewrite package_dir_shape in Hp.
  unfold text_at.
  change (base ++ ["github_repo"; "QUESTIONS.md"])
    with (base ++ ["github_repo"] ++ ["QUESTIONS.md"]).
  change (base ++ ["github_repo"; "README.md"])
    with (base ++ ["github_repo"] ++ ["README.md"]).
  rewrite !app_assoc, !(lookup_app_some _ _ _ _ Hp). split; reflexivity.
Qed.

(** *** The option blocks *)

Ltac solve_option_block :=
  unfold option_block_ok;
  match goal with
  | |- context [option_lines ?q] =>
      split; [exists (firstn 4 q), (skipn 9 q); repeat split; reflexivity|];
      repeat split; reflexivity
  end.

Lemma records_composed_blocks :
  exists q1 q2, records (flat_map lines composed_paragraphs) = [q1; q2] /\
                option_block_ok q1 /\ option_block_ok q2.
Proof.
  eexists _, _. split; [vm_compute; reflexivity|].
  split; solve_option_block.
Qed.

Lemma records_questions_blocks :
  exists q1 q2, records (lines questions_text) = [q1; q2] /\
                option_block_ok q1 /\ option_block_ok q2.
Proof.
  eexists _, _. split; [vm_compute; reflexivity|].
  split; solve_option_block.
Qed.

(** C1. Whenever the composer saves its document, and whenever the
    assembler runs in a ready output directory, each of the two question
    records of the saved document and of the written [QUESTIONS.md] has an
    option block of exactly five lines in a row, labelled (A) to (E), one of
    them carrying the doubled marker [@@option] and the other four the single
    marker [@option]. *)
Theorem option_blocks_five_with_one_marked
    docx_path img1 img2 fs fs' base fs0 c1 c2 cd :
  create_docx docx_path img1 img2 fs = (Ok tt, fs') ->
  assembler_ready base fs0 c1 c2 cd ->
  (exists doc q1 q2,
      lookup docx_path fs' = Some (File (Docx doc)) /\
      records (doc_lines doc) = [q1; q2] /\
      option_block_ok q1 /\ option_block_ok q2) /\
  (exists fs0' r md q1 q2,
      assemble base fs0 = (Ok r, fs0') /\
      text_at (base ++ ["github_repo"; "QUESTIONS.md"]) fs0' = Some md /\
      records (lines md) = [q1; q2] /\
      option_block_ok q1 /\ option_block_ok q2).
Proof.
  intros Hdoc Hready. split.
  - destruct (create_docx_saved _ _ _ _ _ Hdoc) as (doc & Hl & Hp).
    destruct records_composed_blocks as (q1 & q2 & Hr & H1 & H2).
    exists doc, q1, q2. unfold doc_lines. rewrite Hp. auto.
  - destruct (assemble_questions _ _ _ _ _ Hready) as (fs0' & r & Hrun & Hq & _).
    destruct records_questions_blocks as (q1 & q2 & Hr & H1 & H2).
    exists fs0', r, questions_text, q1, q2. auto.
Qed.

Lemma sample_fs_ready :
  assembler_ready ["out"] sample_fs (Text "png1") (Text "png2") (Text "docx").
Proof.
  repeat split; try reflexivity; intros x; cbn; discriminate.
Defined.

Lemma sample_create_docx :
  create_docx ["out"; "generated_assessment.docx"] ["out"; "uniform_table.png"]
    ["out"; "rect_package_topview_8.png"] sample_fs
  = (Ok tt,
     snd (create_docx ["out"; "generated_assessment.docx"]
            ["out"; "uniform_table.png"] ["out"; "rect_package_topview_8.png"]
            sample_fs)).
Proof. vm_compute. reflexivity. Defined.

Lemma option_blocks_five_with_one_marked_witness :
  (exists doc q1 q2,
      lookup ["out"; "generated_assessment.docx"]
        (snd (create_docx ["out"; "generated_assessment.docx"]
                ["out"; "uniform_table.png"] ["out"; "rect_package_topview_8.png"]
                sample_fs))
      = Some (File (Docx doc)) /\
      records (doc_lines doc) = [q1; q2] /\
      option_block_ok q1 /\ option_block_ok q2) /\
  (exists fs0' r md q1 q2,
      assemble ["out"] sample_fs = (Ok r, fs0') /\
      text_at (["out"] ++ ["github_repo"; "QUESTIONS.md"]) fs0' = Some md /\
      records (lines md) = [q1; q2] /\
      option_block_ok q1 /\ option_block_ok q2).
Proof.
  exact (option_blocks_five_with_one_marked _ _ _ _ _ _ _ _ _ _
           sample_create_docx sample_fs_ready).
Defined.

(** *** The two transcriptions *)

(** C2. The question records the assembler writes to [QUESTIONS.md] are,
    line for line, the question records of the document the composer saves:
    both have two records, and each record carries, in this order, the
    question, the instruction, the difficulty, the order, the five options
    with the marker on the same one, the explanation and its text, the
    subject, the unit, the topic and the point value. *)
Theorem markdown_repeats_document
    docx_path img1 img2 fs fs' base fs0 c1 c2 cd :
  create_docx docx_path img1 img2 fs = (Ok tt, fs') ->
  assembler_ready base fs0 c1 c2 cd ->
  exists doc fs0' r md,
    lookup docx_path fs' = Some (File (Docx doc)) /\
    assemble base fs0 = (Ok r, fs0') /\
    text_at (base ++ ["github_repo"; "QUESTIONS.md"]) fs0' = Some md /\
    records (lines md) = records (doc_lines doc) /\
    map (map tag_of) (records (lines md)) = [record_tags; record_tags].
Proof.
  intros Hdoc Hready.
  destruct (create_docx_saved _ _ _ _ _ Hdoc) as (doc & Hl & Hp).
  destruct (assemble_questions _ _ _ _ _ Hready) as (fs0' & r & Hrun & Hq & _).
  exists doc, fs0', r, questions_text.
  split; [exact Hl|]. split; [exact Hrun|]. split; [exact Hq|]. split.
  - unfold doc_lines. rewrite Hp. vm_compute. reflexivity.
  - vm_compute. reflexivity.
Qed.

Lemma markdown_repeats_document_witness :
  exists doc fs0' r md,
    lookup ["out"; "generated_assessment.docx"]
      (snd (create_docx ["out"; "generated_assessment.docx"]
              ["out"; "uniform_table.png"] ["out"; "rect_package_topview_8.png"]
              sample_fs))
    = Some (File (Docx doc)) /\
    assemble ["out"] sample_fs = (Ok r, fs0') /\
    text_at (["out"] ++ ["github_repo"; "QUESTIONS.md"]) fs0' = Some md /\
    records (lines md) = records (doc_lines doc) /\
    map (map tag_of) (records (lines md)) = [record_tags; record_tags].
Proof.
  exact (markdown_repeats_document _ _ _ _ _ _ _ _ _ _
           sample_create_docx sample_fs_ready).
Defined.

(** The paragraphs and the lines differ in one respect: the composer
    starts each [@question] paragraph with a line break, which the markdown
    file has as the end of the line above. *)
Lemma question_paragraphs_start_with_break :
  filter (contains "@question ") composed_paragraphs
  = map (fun l => nl ++ l)%string
        (filter (contains "@question ") (lines questions_text)).
Proof. vm_compute. reflexivity. Qed.

(** *** The marked option and the explanation of the second question *)

(** C3. In the second question record of both outputs the doubled marker
    is on option (C), whose text is [$4 \times 12 \times 18$], while the
    explanation derives [$4 \times 8 \times 16$], which is the text of
    option (A) and not that of the marked option; every successful run of
    the composer and of the assembler writes the record this way. *)
Theorem second_question_marks_C_explains_A
    docx_path img1 img2 fs fs' base fs0 c1 c2 cd :
  create_docx docx_path img1 img2 fs = (Ok tt, fs') ->
  assembler_ready base fs0 c1 c2 cd ->
  let mismatch (q : list string) :=
    marked_options q = [(true, "(C)", "$4 \times 12 \times 18$")] /\
    option_labelled "(A)" q = [(false, "(A)", "$4 \times 8 \times 16$")] /\
    exists e, explanation_of q = Some e /\
              contains "So dimensions: $4 \times 8 \times 16$." e = true /\
              contains "$4 \times 12 \times 18$" e = false in
  (exists doc q1 q2,
      lookup docx_path fs' = Some (File (Docx doc)) /\
      records (doc_lines doc) = [q1; q2] /\ mismatch q2) /\
  (exists fs0' r md q1 q2,
      assemble base fs0 = (Ok r, fs0') /\
      text_at (base ++ ["github_repo"; "QUESTIONS.md"]) fs0' = Some md /\
      records (lines md) = [q1; q2] /\ mismatch q2).
Proof.
  intros Hdoc Hready mismatch. split.
  - destruct (create_docx_saved _ _ _ _ _ Hdoc) as (doc & Hl & Hp).
    eexists doc, _, _. split; [exact Hl|].
    unfold doc_lines. rewrite Hp. split; [vm_compute; reflexivity|].
    repeat split; try reflexivity.
    eexists. split; [reflexivity|]. split; reflexivity.
  - destruct (assemble_questions _ _ _ _ _ Hready) as (fs0' & r & Hrun & Hq & _).
    eexists fs0', r, questions_text, _, _. split; [exact Hrun|].
    split; [exact Hq|]. split; [vm_compute; reflexivity|].
    repeat split; try reflexivity.
    eexists. split; [reflexivity|]. split; reflexivity.
Qed.

Lemma second_question_marks_C_explains_A_witness :
  let mismatch (q : list string) :=
    marked_options q = [(true, "(C)", "$4 \times 12 \times 18$")] /\
    option_labelled "(A)" q = [(false, "(A)", "$4 \times 8 \times 16$")] /\
    exists e, explanation_of q = Some e /\
              contains "So dimensions: $4 \times 8 \times 16$." e = true /\
              contains "$4 \times 12 \times 18$" e = false in
  (exists doc q1 q2,
      lookup ["out"; "generated_assessment.docx"]
        (snd (create_docx ["out"; "generated_assessment.docx"]
                ["out"; "uniform_table.png"] ["out"; "rect_package_topview_8.png"]
                sample_fs))
      = Some (File (Docx doc)) /\
      records (doc_lines doc) = [q1; q2] /\ mismatch q2) /\
  (exists fs0' r md q1 q2,
      assemble ["out"] sample_fs = (Ok r, fs0') /\
      text_at (["out"] ++ ["github_repo"; "QUESTIONS.md"]) fs0' = Some md /\
      records (lines md) = [q1; q2] /\ mismatch q2).
Proof.
  exact (second_question_marks_C_explains_A _ _ _ _ _ _ _ _ _ _
           sample_create_docx sample_fs_ready).
Defined.

(** *** The packed circles *)












(** *** The table image without a font *)



(** An exception that is no [Exception] is not caught. *)
Lemma keyboard_interrupt_propagates path_ fs :
  make_uniform_image (Raise KeyboardInterrupt) path_ fs
  = (Raise KeyboardInterrupt, fs).
Proof. reflexivity. Qed.

(** *** The package and its archive *)

(** Walking any tree: the names the archive loop computes are the paths of
    the regular files of the tree, relative to its root. *)

Lemma node_forall_ind (P : node -> Prop) :
  (forall c, P (File c)) ->
  (forall es, Forall (fun e => P (snd e)) es -> P (Dir es)) ->
  forall n, P n.
Proof.
  intros Hf Hd. fix IH 1. intros [c|es]; [apply Hf|].
  apply Hd. induction es as [|[k m] es IHes]; constructor; [apply IH | exact IHes].
Qed.

Lemma walk_dir root es :
  walk root (Dir es)
  = (root, subdirs es, nondirs es)
    :: flat_map (fun e => walk (root ++ [fst e]) (snd e)) es.
Proof.
  cbn [walk]. f_equal.
  induction es as [|[c m] es IH]; [reflexivity|].
  cbn [flat_map fst snd]. now rewrite <- IH.
Qed.

Lemma files_rel_dir es :
  files_rel (Dir es)
  = flat_map (fun e => match snd e with
                       | File _ => [[fst e]]
                       | Dir _ => map (cons (fst e)) (files_rel (snd e))
                       end) es.
Proof.
  cbn [files_rel].
  induction es as [|[c m] es IH]; [reflexivity|].
  cbn [flat_map fst snd]. now rewrite <- IH.
Qed.

Lemma named_dir es :
  named (Dir es) = forallb (fun e => negb (String.eqb (fst e) "") && named (snd e)) es.
Proof.
  cbn [named].
  induction es as [|[c m] es IH]; [reflexivity|].
  cbn [forallb fst snd]. now rewrite <- IH.
Qed.

Lemma arcnames_app top t1 t2 :
  arcnames top (t1 ++ t2) = arcnames top t1 ++ arcnames top t2.
Proof. unfold arcnames. apply flat_map_app. Qed.

Lemma arcnames_of_any_tree top n :
  named n = true ->
  forall rel, exists qs,
    arcnames top (walk (top ++ rel) n) = map (fun q => Ok (rel ++ q)) qs /\
    Permutation qs (files_rel n).
Proof.
  induction n as [c|es IH] using node_forall_ind; intros Hn rel.
  - exists []. split; [reflexivity|constructor].
  - rewrite walk_dir, files_rel_dir. rewrite named_dir in Hn.
    change ((top ++ rel, subdirs es, nondirs es)
            :: flat_map (fun e => walk ((top ++ rel) ++ [fst e]) (snd e)) es)
      with ([(top ++ rel, subdirs es, nondirs es)]
            ++ flat_map (fun e => walk ((top ++ rel) ++ [fst e]) (snd e)) es).
    rewrite arcnames_app.
    assert (Hfiles :
      arcnames top [(top ++ rel, subdirs es, nondirs es)]
      = map (fun q => Ok (rel ++ q)) (map (fun f => [f]) (nondirs es))).
    { unfold arcnames. cbn [flat_map]. rewrite app_nil_r, map_map.
      apply map_ext_in. intros f Hf.
      assert (Hne : String.eqb f "" = false).
      { unfold nondirs in Hf. apply in_map_iff in Hf as ((k & m) & <- & Hin).
        apply filter_In in Hin as (Hin & _).
        rewrite forallb_forall in Hn. specialize (Hn _ Hin). cbn [fst snd] in Hn.
        apply andb_prop in Hn as (Hk & _). now apply negb_true_iff in Hk. }
      unfold joinpath. rewrite Hne, <- app_assoc. apply relative_to_app. }
    rewrite Hfiles. clear Hfiles.
    assert (Hsub : exists qs2,
      arcnames top (flat_map (fun e => walk ((top ++ rel) ++ [fst e]) (snd e)) es)
      = map (fun q => Ok (rel ++ q)) qs2 /\
      Permutation (map (fun f => [f]) (nondirs es) ++ qs2)
        (flat_map (fun e => match snd e with
                            | File _ => [[fst e]]
                            | Dir _ => map (cons (fst e)) (files_rel (snd e))
                            end) es)).
    { induction es as [|[k m] es IHes].
      - exists []. split; [reflexivity|constructor].
      - inversion IH as [|? ? Hm Hes]; subst. cbn [fst snd] in Hm.
        cbn [forallb fst snd] in Hn.
        apply andb_prop in Hn as (Hkm & Hn). apply andb_prop in Hkm as (_ & Hnm).
        destruct (IHes Hes Hn) as (qs2 & E2 & P2).
        destruct (Hm Hnm (rel ++ [k])) as (qsm & Em & Pm).
        exists (map (cons k) qsm ++ qs2). split.
        + cbn [flat_map fst snd]. rewrite arcnames_app, E2.
          rewrite <- app_assoc, Em, map_app, map_map. f_equal.
          apply map_ext. intros q. now rewrite <- app_assoc.
        + cbn [flat_map fst snd]. unfold nondirs. cbn [filter snd].
          destruct m as [c|d].
          * cbn [map fst]. cbn [files_rel] in Pm.
            apply Permutation_sym, Permutation_nil in Pm. subst qsm. cbn [map app].
            constructor. exact P2.
          * fold (nondirs es).
            rewrite app_assoc.
            rewrite (Permutation_app_comm (map (fun f => [f]) (nondirs es))).
            rewrite <- app_assoc. apply Permutation_app; [|exact P2].
            now apply Permutation_map. }
    destruct Hsub as (qs2 & E2 & P2).
    exists (map (fun f => [f]) (nondirs es) ++ qs2). split; [|exact P2].
    now rewrite E2, map_app.
Qed.

Lemma package_zip_shape c1 c2 cd :
  package_zip c1 c2 cd =
  Some (File (ZipArchive
    [("README.md", Text readme_text);
     ("QUESTIONS.md", Text questions_text);
     ("generated_assessment.docx", cd);
     ("images/uniform_table.png", c1);
     ("images/rect_package_topview_8.png", c2)])).
Proof. reflexivity. Qed.






(** *** A whole run without publishing *)

Lemma mkdir_exist_ok_lookup b p fs fs' :
  mkdir b true p fs = (Ok tt, fs') -> exists es, lookup p fs' = Some (Dir es).
Proof.
  unfold mkdir, update. destruct p as [|k p].
  - destruct fs as [c|es]; cbn; [discriminate|]. intros [= <-]. eauto.
  - match goal with |- context [alter b (k :: p) ?f fs] =>
      destruct (alter b (k :: p) f fs) as [n'|] eqn:E; [|discriminate];
      intros [= <-]; destruct (alter_lookup _ _ _ _ _ E) as (o & r & Hf & Hl)
    end.
    rewrite Hl. destruct o as [[?|es]|]; cbn in Hf; try discriminate;
      injection Hf as <-; eauto.
Qed.

Lemma write_file_under_dir base a c fs fs' es :
  lookup base fs = Some (Dir es) ->
  write_file (base ++ [a]) c fs = (Ok tt, fs') ->
  lookup base fs' = Some (Dir (alist_set a (File c) es)).
Proof.
  intros Hb. unfold write_file.
  rewrite (update_under _ _ _ _ _ _ Hb) by discriminate. cbn [alter].
  destruct (write_to c (alist_get a es)) as [r|] eqn:E; [|discriminate].
  intros [= <-].
  assert (r = Some (File c)) as ->
    by (destruct (alist_get a es) as [[?|?]|]; cbn in E; congruence).
  apply (lookup_replace _ _ _ _ Hb).
Qed.

Lemma make_uniform_image_inv load_default path_ fs fs' :
  make_uniform_image load_default path_ fs = (Ok tt, fs') ->
  exists img, write_file path_ (Png img) fs = (Ok tt, fs').
Proof.
  unfold make_uniform_image. rewrite bind_eq.
  unfold try_except, lift_outcome. rewrite bind_eq.
  destruct load_default as [f|e].
  - unfold ret. cbn -[write_file]. eauto.
  - cbv beta iota. destruct (is_Exception e); [|discriminate].
    unfold ret. cbn -[write_file]. eauto.
Qed.

Lemma make_packed_spheres_image_eq path_ rows cols radius_cm fs :
  make_packed_spheres_image path_ rows cols radius_cm fs
  = write_file path_
      (FigurePng (snd (packed_spheres_figure rows cols radius_cm)) (2 # 100)) fs.
Proof. reflexivity. Qed.

Lemma read_file_state p fs r fs' : read_file p fs = (r, fs') -> fs' = fs.
Proof.
  unfold read_file. destruct (lookup p fs) as [[?|?]|]; now intros [= _ <-].
Qed.

Lemma create_docx_inv docx_path img1 img2 fs fs' :
  create_docx docx_path img1 img2 fs = (Ok tt, fs') ->
  exists doc, write_file docx_path (Docx doc) fs = (Ok tt, fs') /\
              paragraphs doc = composed_paragraphs.
Proof.
  unfold create_docx. rewrite bind_eq. unfold add_picture at 1.
  rewrite bind_eq. destruct (read_file img1 fs) as [[c1|e1] fs1] eqn:E1;
    [|discriminate].
  apply read_file_state in E1. subst fs1.
  unfold ret at 1. rewrite bind_eq. unfold add_picture at 1. rewrite bind_eq.
  destruct (read_file img2 fs) as [[c2|e2] fs2] eqn:E2; [|discriminate].
  apply read_file_state in E2. subst fs2.
  unfold ret at 1. intros H. eexists. split; [exact H|]. reflexivity.
Qed.

(** A run of [main] that is not asked to publish and completes has brought
    the output directory into a state ready for the assembler and has ended
    with the assembler's run from there. *)
Lemma main_inv {G : Type} (tool : list string -> path -> node * G -> Z * (node * G))
    load_default base branch (w w' : world G) :
  main tool load_default base None branch w = (Ok tt, w') ->
  exists fs4 c1 c2 cd,
    assembler_ready base fs4 c1 c2 cd /\
    assemble base fs4
    = (Ok (base ++ ["github_repo"], base ++ ["github_repo.zip"]), w_fs w') /\
    w_git w' = w_git w /\ w_calls w' = w_calls w /\
    exists img doc,
      c1 = Png img /\
      c2 = FigurePng (snd (packed_spheres_figure 2 4 2)) (2 # 100) /\
      cd = Docx doc /\ paragraphs doc = composed_paragraphs.
Proof.
  unfold main. unfold joinpath. cbn [String.eqb Ascii.eqb Bool.eqb].
  rewrite bind_eq. unfold liftfs at 1.
  destruct (mkdir true true base (w_fs w)) as [[[]|e] fs1] eqn:E1; [|discriminate].
  rewrite bind_eq. unfold liftfs at 1. cbn [w_fs w_git w_calls].
  destruct (make_uniform_image load_default (base ++ ["uniform_table.png"]) fs1)
    as [[[]|e] fs2] eqn:E2; [|discriminate].
  rewrite bind_eq. unfold liftfs at 1. cbn [w_fs w_git w_calls].
  rewrite make_packed_spheres_image_eq.
  match goal with |- context [write_file ?p ?c fs2] =>
    destruct (write_file p c fs2) as [[[]|e] fs3] eqn:E3; [|discriminate] end.
  rewrite bind_eq. unfold liftfs at 1. cbn [w_fs w_git w_calls].
  match goal with |- context [create_docx ?d ?i ?j fs3] =>
    destruct (create_docx d i j fs3) as [[[]|e] fs4] eqn:E4; [|discriminate] end.
  rewrite bind_eq. unfold liftfs at 1. cbn [w_fs w_git w_calls].
  match goal with |- context [make_github_folder ?b ?i ?j ?d fs4] =>
    destruct (make_github_folder b i j d fs4) as [[[r z]|e] fs5] eqn:E5;
      [|discriminate] end.
  unfold ret. intros [= <-]. cbn [w_fs w_git w_calls].
  destruct (mkdir_exist_ok_lookup _ _ _ _ E1) as (es1 & Hb1).
  destruct (make_uniform_image_inv _ _ _ _ E2) as (img & E2').
  pose proof (write_file_under_dir _ _ _ _ _ _ Hb1 E2') as Hb2.
  pose proof (write_file_under_dir _ _ _ _ _ _ Hb2 E3) as Hb3.
  destruct (create_docx_inv _ _ _ _ _ E4) as (doc & E4' & Hpar).
  pose proof (write_file_under_dir _ _ _ _ _ _ Hb3 E4') as Hb4.
  match type of Hb4 with _ = Some (Dir ?es) => set (es4 := es) in * end.
  assert (H1 : alist_get "uniform_table.png" es4 = Some (File (Png img)))
    by (subst es4; now autorewrite with alist).
  assert (H2 : alist_get "rect_package_topview_8.png" es4
               = Some (File (FigurePng (snd (packed_spheres_figure 2 4 2)) (2 # 100))))
    by (subst es4; now autorewrite with alist).
  assert (Hd : alist_get "generated_assessment.docx" es4 = Some (File (Docx doc)))
    by (subst es4; now autorewrite with alist).
  clearbody es4.
  assert (Hrepo : match alist_get "github_repo" es4 with
                  | Some (File _) => False | _ => True end).
  { destruct (alist_get "github_repo" es4) as [[c|?]|] eqn:E; try exact I.
    rewrite (make_github_folder_repo_is_file _ _ _ _ _ _ _ Hb4 E) in E5.
    discriminate E5. }
  destruct (make_github_folder_total _ _ _ Hb4 Hrepo) as (_ & T1).
  destruct (T1 _ H1) as (_ & T2). destruct (T2 _ H2) as (_ & T3).
  destruct (T3 _ Hd) as [Hfail Hok].
  assert (Hzip : match alist_get "github_repo.zip" es4 with
                 | Some (Dir _) => False | _ => True end).
  { destruct (alist_get "github_repo.zip" es4) as [[?|dz]|] eqn:E; try exact I.
    destruct (Hfail dz eq_refl) as (fx & ex & Hf & _).
    rewrite E5 in Hf. discriminate Hf. }
  destruct (Hok Hzip) as (fs' & es' & Hrun & _).
  rewrite E5 in Hrun. injection Hrun as -> -> ->.
  exists fs4, (Png img),
    (FigurePng (snd (packed_spheres_figure 2 4 2)) (2 # 100)), (Docx doc).
  split; [|split; [exact E5|split; [reflexivity|split; [reflexivity|]]]].
  2:{ exists img, doc. auto. }
  unfold assembler_ready. rewrite !(lookup_snoc _ _ _ _ Hb4).
  repeat split; try assumption.
  - intros c E. now rewrite E in Hrepo.
  - intros d E. now rewrite E in Hzip.
Qed.











Lemma first_run :
  main no_tool (Ok DefaultFont) ["out"] None "main" empty_world
  = (Ok tt, snd (main no_tool (Ok DefaultFont) ["out"] None "main" empty_world)).
Proof. vm_compute. reflexivity. Defined.



(** *** The publisher *)

Section PublisherFacts.

Context {G : Type}.
Variable tool : list string -> path -> node * G -> Z * (node * G).

Ltac publisher_cases E :=
  repeat (cbn [fst snd w_fs w_git w_calls andb negb] in E;
          match type of E with
          | context [lookup ?p ?f] => destruct (lookup p f) as [[?|?]|] eqn:?
          | context [tool ?c ?d ?s] => destruct (tool c d s) as [? [? ?]] eqn:?
          | context [Z.eqb ?rc 0] => destruct (Z.eqb rc 0) eqn:?
          end).

Ltac in_cases H :=
  cbn [In removelast] in H;
  repeat (destruct H as [H|H]; [|try contradiction]);
  try contradiction.

Ltac publisher_leaf :=
  split; [rewrite ?app_nil_r; reflexivity|];
  split; [cbn [publish_plan app map fst]; reflexivity|];
  split; [intros H; first [discriminate H | split; [reflexivity|];
          intros ?cmd ?rc Hin; in_cases Hin; injection Hin as <- <-;
          first [left; apply Z.eqb_eq; assumption | right; reflexivity]]|];
  split; [intros H; first [eexists; reflexivity | now destruct H]|];
  split; [intros ?rc Hin; in_cases Hin; first [discriminate Hin |
          injection Hin as <-; symmetry; assumption]|];
  split; [intros ?cmd ?rc Hin; in_cases Hin; injection Hin as <- <-;
          first [left; apply Z.eqb_eq; assumption | right; reflexivity]|];
  split; [intros ?cmd ?rc Hin Hrc Hcmd; in_cases Hin; injection Hin as <- <-;
          first [ exfalso; apply Hrc; apply Z.eqb_eq; assumption
                | exfalso; apply Hcmd; reflexivity
                | split; reflexivity ]|];
  split; [intros ?e H; first [discriminate H | injection H as <-;
          first [ left; eexists _, _; split; [reflexivity|];
                  split; [apply Z.eqb_neq; assumption|];
                  split; [discriminate|]; reflexivity
                | right; split; [tauto|]; intros ?d; congruence ]]|];
  unfold replay; cbn [map fst fold_left];
  repeat (match goal with H : tool _ _ _ = _ |- _ => rewrite H end; cbn [snd]);
  reflexivity.

(** The record of a run of the publisher: the calls it made are an initial
    part of its plan, each made once; all but the last returned zero (the
    listing of the remotes apart, whose return code only selects the plan);
    an error is the failing call's own or says that the working directory is
    gone; and the world it leaves is the one the calls made. *)
Lemma publisher_trace repo_dir remote_url branch (w : world G) :
  exists calls list_ok rest,
    let r := fst (git_init_and_push tool repo_dir remote_url branch w) in
    let w' := snd (git_init_and_push tool repo_dir remote_url branch w) in
    let has_repo :=
      match lookup (repo_dir ++ [".git"]) (w_fs w) with
      | Some _ => true
      | None => false
      end in
    w_calls w' = w_calls w ++ calls /\
    publish_plan has_repo list_ok remote_url branch = map fst calls ++ rest /\
    (r = Ok tt ->
     rest = [] /\
     forall c rc, In (c, rc) calls -> rc = 0 \/ c = ["git"; "remote"]) /\
    (rest <> [] -> exists e, r = Raise e) /\
    (forall rc, In (["git"; "remote"], rc) calls -> list_ok = (rc =? 0)) /\
    (forall c rc, In (c, rc) (removelast calls) -> rc = 0 \/ c = ["git"; "remote"]) /\
    (forall c rc, In (c, rc) calls -> rc <> 0 -> c <> ["git"; "remote"] ->
       r = Raise (CalledProcessError rc c) /\
       calls = removelast calls ++ [(c, rc)]) /\
    (forall e, r = Raise e ->
       (exists c rc, e = CalledProcessError rc c /\ rc <> 0 /\
                     c <> ["git"; "remote"] /\
                     calls = removelast calls ++ [(c, rc)]) \/
       ((e = FileNotFoundError \/ e = NotADirectoryError) /\
        forall d, lookup repo_dir (w_fs w') <> Some (Dir d))) /\
    (w_fs w', w_git w') = replay tool repo_dir (map fst calls) (w_fs w, w_git w).
Proof.
  destruct (git_init_and_push tool repo_dir remote_url branch w) as [r w'] eqn:E.
  unfold git_init_and_push, subprocess_run, liftfs, exists_, when, bind, ret,
    joinpath in E.
  cbn [String.eqb Ascii.eqb Bool.eqb] in E.
  publisher_cases E.
  all: cbn [fst snd w_fs w_git w_calls andb negb] in E.
  all: injection E as <- <-.
  all: cbn [fst snd w_fs w_git w_calls].
  all: rewrite <- ?app_assoc; cbn [app].
  all: lazymatch goal with
       | |- exists calls _ _, _ ++ ?L = _ ++ calls /\ _ => exists L
       | |- exists calls _ _, w_calls _ = _ ++ calls /\ _ => exists []
       end.
  all: try solve [exists true; eexists; publisher_leaf
                 | exists false; eexists; publisher_leaf].
Qed.

End PublisherFacts.

Lemma publish_plan_NoDup has_repo list_ok remote_url branch :
  NoDup (publish_plan has_repo list_ok remote_url branch).
Proof.
  destruct has_repo, list_ok; cbn [publish_plan app];
    repeat constructor; cbn [In]; intros H;
    repeat (destruct H as [H|H]; [discriminate H|]); exact H.
Qed.

(** The handler of [main] hands the publisher's exception on unchanged. *)
Lemma reraise_is_identity {S A : Type} (m : M S A) (catches : exn -> bool) (s : S) :
  try_except m catches (fun e => raise e) s = m s.
Proof.
  unfold try_except, raise. destruct (m s) as [[a|e] s']; [reflexivity|].
  now destruct (catches e).
Qed.

(** C8. The publisher runs the steps of its plan in their order:
    initialise (only when there is no repository), branch, stage, commit,
    configure the remote, push.  The calls it makes are an initial part of
    the plan and none is made twice; every call before the last returned
    zero; a call that returns a non-zero code is the last one and its
    [CalledProcessError], with that return code, is what the publisher
    raises (the listing of the remotes apart, which is run unchecked and
    only decides whether [origin] is removed); the only other exception says
    that the working directory is gone; [main] passes the exception on
    unchanged; and the world the publisher leaves is exactly what the calls
    it made have produced, so nothing is undone: in the model of git, a push
    that cannot reach its remote leaves the commit in place. *)
Theorem publisher_is_linear_and_aborts {G : Type}
    (tool : list string -> path -> node * G -> Z * (node * G))
    repo_dir remote_url branch (w : world G) :
  (exists calls list_ok rest,
    let r := fst (git_init_and_push tool repo_dir remote_url branch w) in
    let w' := snd (git_init_and_push tool repo_dir remote_url branch w) in
    let has_repo :=
      match lookup (repo_dir ++ [".git"]) (w_fs w) with
      | Some _ => true
      | None => false
      end in
    w_calls w' = w_calls w ++ calls /\
    publish_plan has_repo list_ok remote_url branch = map fst calls ++ rest /\
    NoDup (map fst calls) /\
    (r = Ok tt ->
     rest = [] /\
     forall c rc, In (c, rc) calls -> rc = 0 \/ c = ["git"; "remote"]) /\
    (rest <> [] -> exists e, r = Raise e) /\
    (forall rc, In (["git"; "remote"], rc) calls -> list_ok = (rc =? 0)) /\
    (forall c rc, In (c, rc) (removelast calls) -> rc = 0 \/ c = ["git"; "remote"]) /\
    (forall c rc, In (c, rc) calls -> rc <> 0 -> c <> ["git"; "remote"] ->
       r = Raise (CalledProcessError rc c) /\
       calls = removelast calls ++ [(c, rc)]) /\
    (forall e, r = Raise e ->
       (exists c rc, e = CalledProcessError rc c /\ rc <> 0 /\
                     c <> ["git"; "remote"] /\
                     calls = removelast calls ++ [(c, rc)]) \/
       ((e = FileNotFoundError \/ e = NotADirectoryError) /\
        forall d, lookup repo_dir (w_fs w') <> Some (Dir d))) /\
    (w_fs w', w_git w') = replay tool repo_dir (map fst calls) (w_fs w, w_git w)) /\
  try_except (git_init_and_push tool repo_dir remote_url branch)
             is_CalledProcessError (fun e => raise e) w
  = git_init_and_push tool repo_dir remote_url branch w /\
  (let '(r, w') :=
     git_init_and_push git_tool ["out"; "github_repo"]
       "https://example.invalid/none.git" "main" package_with_origin in
   r = Raise (CalledProcessError 128 ["git"; "push"; "-u"; "origin"; "main"]) /\
   r_commits (w_git w') = ["Add generated assessment questions"] /\
   r_pushed (w_git w') = []).
Proof.
  split; [|split; [apply reraise_is_identity|]].
  - destruct (publisher_trace tool repo_dir remote_url branch w)
      as (calls & list_ok & rest & H).
    exists calls, list_ok, rest. cbv zeta in *.
    destruct H as (Hc & Hp & H).
    split; [exact Hc|]. split; [exact Hp|]. split; [|exact H].
    pose proof (publish_plan_NoDup
                  (match lookup (repo_dir ++ [".git"]) (w_fs w) with
                   | Some _ => true | None => false end)
                  list_ok remote_url branch) as Hn.
    rewrite Hp in Hn. now apply NoDup_app_remove_r in Hn.
  - vm_compute. repeat split.
Qed.

(** C4, on the code.  Whatever the tool, once the listing of the remotes
    has succeeded the publisher runs the removal of [origin], and a removal
    that returns a non-zero code ends the run with that call's error: the
    addition of the remote and the push are not reached.  Git answers the
    removal of a remote that does not exist with a non-zero code; so in a
    freshly assembled package (no repository, hence no [origin]) the model of
    git shows the publisher stop there, and because [main] rebuilds the
    package directory in every run, a whole run that is asked to publish ends
    the same way.  With an [origin] in place beforehand the same steps do
    reach the push. *)
Theorem publisher_stops_without_origin :
  (forall (G : Type) (tool : list string -> path -> node * G -> Z * (node * G))
          repo_dir remote_url branch (w : world G) calls rc,
      w_calls (snd (git_init_and_push tool repo_dir remote_url branch w))
      = w_calls w ++ calls ->
      In (["git"; "remote"; "remove"; "origin"], rc) calls ->
      rc <> 0 ->
      fst (git_init_and_push tool repo_dir remote_url branch w)
      = Raise (CalledProcessError rc ["git"; "remote"; "remove"; "origin"]) /\
      calls = removelast calls ++ [(["git"; "remote"; "remove"; "origin"], rc)]) /\
  (let '(r, w') :=
     git_init_and_push git_tool ["out"; "github_repo"]
       "https://example.org/new.git" "main" fresh_package in
   r = Raise (CalledProcessError 2 ["git"; "remote"; "remove"; "origin"]) /\
   w_calls w'
   = [(["git"; "init"], 0); (["git"; "checkout"; "-B"; "main"], 0);
      (["git"; "add"; "."], 0);
      (["git"; "commit"; "-m"; "Add generated assessment questions"], 0);
      (["git"; "remote"], 0); (["git"; "remote"; "remove"; "origin"], 2)] /\
   r_remotes (w_git w') = [] /\ r_pushed (w_git w') = []) /\
  (let '(r, w') :=
     main git_tool (Ok DefaultFont) ["out"] (Some "https://example.org/new.git")
       "main" (mkWorld (Dir []) (mkRepo "" false [] [] [] []) []) in
   r = Raise (CalledProcessError 2 ["git"; "remote"; "remove"; "origin"]) /\
   r_pushed (w_git w') = []) /\
  (let '(r, w') :=
     git_init_and_push git_tool ["out"; "github_repo"]
       "https://example.org/new.git" "main" package_with_origin in
   r = Ok tt /\
   r_remotes (w_git w') = [("origin", "https://example.org/new.git")] /\
   r_pushed (w_git w') = [("https://example.org/new.git", "main")]).
Proof.
  split.
  - intros G tool repo_dir remote_url branch w calls rc Hcalls Hin Hrc.
    destruct (publisher_trace tool repo_dir remote_url branch w)
      as (calls0 & list_ok & rest & H).
    cbv zeta in H. destruct H as (Hc & _ & _ & _ & _ & _ & Hfail & _).
    rewrite Hc in Hcalls. apply app_inv_head in Hcalls. subst calls0.
    apply (Hfail _ _ Hin Hrc). discriminate.
  - vm_compute. repeat split.
Qed.

(* ================================================================== *)
(** ** Further properties of the code *)
(* ================================================================== *)

(** *** What a computation leaves alone *)

Lemma diverge_nil q : ~ diverge [] q.
Proof. intros (l & a & b & p' & q' & H & _). now destruct l. Qed.

Lemma diverge_app p r q : diverge p q -> diverge (p ++ r) q.
Proof.
  intros (l & a & b & p' & q' & -> & -> & Hab).
  exists l, a, b, (p' ++ r), q'. now rewrite <- app_assoc.
Qed.

Lemma diverge_joinpath p s q : diverge p q -> diverge (p // s) q.
Proof.
  intros H. unfold joinpath. destruct (String.eqb s ""); [exact H|].
  now apply diverge_app.
Qed.

Lemma diverge_snoc b k k' q : k <> k' -> diverge (b ++ [k]) (b ++ k' :: q).
Proof. intros H. now exists b, k, k', [], q. Qed.

Lemma alter_diverge parents p q f n n' :
  alter parents p f n = Ok n' -> diverge p q -> lookup q n' = lookup q n.
Proof.
  intros H (l & a & b & p' & q' & -> & -> & Hab). revert n n' H.
  induction l as [|c l IH]; intros n n' H.
  - cbn [app] in *. destruct n as [?|es]; [discriminate|].
    destruct p' as [|c' r].
    + cbn [alter] in H. destruct (f (alist_get a es)) as [o|]; [|discriminate].
      injection H as <-. cbn [lookup]. now rewrite alist_get_put_other.
    + rewrite alter_cons2 in H.
      destruct (alist_get a es) as [m|].
      * destruct (alter parents (c' :: r) f m); [|discriminate].
        injection H as <-. cbn [lookup]. now rewrite alist_get_set_other.
      * destruct parents; [|discriminate].
        destruct (alter true (c' :: r) f (Dir [])); [|discriminate].
        injection H as <-. cbn [lookup]. now rewrite alist_get_set_other.
  - destruct n as [?|es]; [discriminate|].
    assert (E : exists c' r, l ++ a :: p' = c' :: r)
      by (destruct l; cbn; eauto).
    destruct E as (c' & r & E). cbn [app] in H. 
    rewrite E, alter_cons2, <- E in H. cbn [app lookup].
    destruct (alist_get c es) as [m|].
    + destruct (alter parents (l ++ a :: p') f m) as [m'|] eqn:Em; [|discriminate].
      injection H as <-. rewrite alist_get_set_same. exact (IH _ _ Em).
    + destruct parents; [|discriminate].
      destruct (alter true (l ++ a :: p') f (Dir [])) as [m'|] eqn:Em; [|discriminate].
      injection H as <-. rewrite alist_get_set_same, (IH _ _ Em).
      now destruct l.
Qed.

Lemma keeps_weaken {A : Type} (P Q : path -> Prop) (m : M node A) :
  (forall q, Q q -> P q) -> keeps P m -> keeps Q m.
Proof. intros HPQ Hm fs r fs' H q Hq. exact (Hm _ _ _ H q (HPQ q Hq)). Qed.

Lemma keeps_update (P : path -> Prop) parents p f :
  (forall q, P q -> diverge p q) -> keeps P (update parents p f).
Proof.
  intros HP fs r fs' H q Hq. specialize (HP q Hq).
  destruct p as [|c p]; [now apply diverge_nil in HP|].
  unfold update in H.
  destruct (alter parents (c :: p) f fs) as [n'|] eqn:E.
  - injection H as _ <-. exact (alter_diverge _ _ _ _ _ _ E HP).
  - now injection H as _ <-.
Qed.

Lemma keeps_ret {A : Type} (P : path -> Prop) (a : A) : keeps P (ret a).
Proof. intros fs r fs' [= _ <-] q _. reflexivity. Qed.

Lemma keeps_raise {A : Type} (P : path -> Prop) e : keeps P (@raise node A e).
Proof. intros fs r fs' [= _ <-] q _. reflexivity. Qed.

Lemma keeps_lift_outcome {A : Type} (P : path -> Prop) (o : outcome A) :
  keeps P (lift_outcome o).
Proof. intros fs r fs' [= _ <-] q _. reflexivity. Qed.

Lemma keeps_bind {A B : Type} (P : path -> Prop) (m : M node A) (k : A -> M node B) :
  keeps P m -> (forall a, keeps P (k a)) -> keeps P (bind m k).
Proof.
  intros Hm Hk fs r fs' H q Hq. unfold bind in H.
  destruct (m fs) as [[a|e] fs1] eqn:E.
  - rewrite (Hk a _ _ _ H q Hq). exact (Hm _ _ _ E q Hq).
  - injection H as _ <-. exact (Hm _ _ _ E q Hq).
Qed.

Lemma keeps_try_except {A : Type} (P : path -> Prop) (m : M node A) catches h :
  keeps P m -> (forall e, keeps P (h e)) -> keeps P (try_except m catches h).
Proof.
  intros Hm Hh fs r fs' H q Hq. unfold try_except in H.
  destruct (m fs) as [[a|e] fs1] eqn:E.
  - injection H as _ <-. exact (Hm _ _ _ E q Hq).
  - destruct (catches e).
    + rewrite (Hh e _ _ _ H q Hq). exact (Hm _ _ _ E q Hq).
    + injection H as _ <-. exact (Hm _ _ _ E q Hq).
Qed.

Lemma keeps_when (P : path -> Prop) c m : keeps P m -> keeps P (when c m).
Proof. destruct c; [trivial|intros _; apply keeps_ret]. Qed.

Lemma keeps_for_each {A : Type} (P : path -> Prop) (xs : list A) body :
  (forall x, keeps P (body x)) -> keeps P (for_each xs body).
Proof.
  intros Hb. induction xs as [|x xs IH]; cbn [for_each].
  - apply keeps_ret.
  - apply keeps_bind; [apply Hb|intros _; exact IH].
Qed.

Lemma keeps_exists (P : path -> Prop) p : keeps P (exists_ p).
Proof. intros fs r fs' [= _ <-] q _. reflexivity. Qed.

Lemma keeps_isdir (P : path -> Prop) p : keeps P (isdir p).
Proof. intros fs r fs' [= _ <-] q _. reflexivity. Qed.

Lemma keeps_read_file (P : path -> Prop) p : keeps P (read_file p).
Proof. intros fs r fs' H q _. now rewrite (read_file_state _ _ _ _ H). Qed.

Lemma keeps_os_walk (P : path -> Prop) p : keeps P (os_walk p).
Proof.
  intros fs r fs' H q _. unfold os_walk in H.
  destruct (lookup p fs); now injection H as _ <-.
Qed.

Lemma keeps_shutil_copy (P : path -> Prop) src dst :
  (forall q, P q -> diverge dst q) -> keeps P (shutil_copy src dst).
Proof.
  intros HP. unfold shutil_copy.
  apply keeps_bind; [apply keeps_isdir|]. intros d.
  apply keeps_bind; [apply keeps_read_file|]. intros c.
  apply keeps_bind.
  - destruct (list_eq_dec string_dec src _); [apply keeps_raise|apply keeps_ret].
  - intros _. apply keeps_update. intros q Hq.
    destruct d; [apply diverge_joinpath|]; auto.
Qed.

Lemma keeps_zf_write (P : path -> Prop) zip_path full arc :
  (forall q, P q -> diverge zip_path q) -> keeps P (zf_write zip_path full arc).
Proof.
  intros HP. unfold zf_write.
  apply keeps_bind; [apply keeps_read_file|]. intros c.
  apply keeps_bind; [apply keeps_read_file|]. intros z.
  destruct z; try apply keeps_raise. now apply keeps_update.
Qed.

Lemma keeps_make_github_folder base img1 img2 docx_path :
  keeps (fun q => diverge (base ++ ["github_repo"]) q /\
                  diverge (base ++ ["github_repo.zip"]) q)
        (make_github_folder base img1 img2 docx_path).
Proof.
  unfold make_github_folder, mkdir, rmtree, unlink, write_file.
  change (base // "github_repo") with (base ++ ["github_repo"]).
  change (base // "github_repo.zip") with (base ++ ["github_repo.zip"]).
  repeat first
    [ apply keeps_ret
    | apply keeps_exists
    | apply keeps_os_walk
    | apply keeps_lift_outcome
    | apply keeps_when
    | apply keeps_update; intros ?q [? ?]
    | apply keeps_shutil_copy; intros ?q [? ?]
    | apply keeps_zf_write; intros ?q [? ?]
    | apply keeps_for_each; intros [[? ?] ?]
    | apply keeps_for_each; intros ?
    | apply keeps_bind; [|intros ?]
    | assumption
    | apply diverge_joinpath ].
Qed.

(** X4. The assembler, whatever its arguments, the state it starts in and its
    outcome, changes nothing but the Package Directory and the archive:
    a path that parts ways with both [base/github_repo] and
    [base/github_repo.zip] leads afterwards to what it led to before. *)
Theorem assembler_leaves_the_rest_alone base img1 img2 docx_path fs r fs' q :
  make_github_folder base img1 img2 docx_path fs = (r, fs') ->
  diverge (base // "github_repo") q ->
  diverge (base // "github_repo.zip") q ->
  lookup q fs' = lookup q fs.
Proof.
  intros H H1 H2.
  exact (keeps_make_github_folder base img1 img2 docx_path _ _ _ H q (conj H1 H2)).
Qed.

Lemma assembler_leaves_the_rest_alone_witness :
  lookup ["out"; "uniform_table.png"]
    (snd (assemble ["out"] stale_fs))
  = lookup ["out"; "uniform_table.png"] stale_fs.
Proof.
  apply (assembler_leaves_the_rest_alone ["out"] _ _ _ stale_fs
           (fst (assemble ["out"] stale_fs)) _ _ (surjective_pairing _)).
  - exists ["out"], "github_repo", "uniform_table.png", [], [].
    split; [reflexivity|]. split; [reflexivity|].
    apply String.eqb_neq. reflexivity.
  - exists ["out"], "github_repo.zip", "uniform_table.png", [], [].
    split; [reflexivity|]. split; [reflexivity|].
    apply String.eqb_neq. reflexivity.
Defined.

(** X2. When a regular file stands where the Package Directory goes, the
    assembler raises [NotADirectoryError] (from [shutil.rmtree]) before it
    has changed anything, whatever its other arguments. *)
Theorem package_path_taken_by_file base img1 img2 docx_path fs c :
  lookup (base ++ ["github_repo"]) fs = Some (File c) ->
  make_github_folder base img1 img2 docx_path fs = (Raise NotADirectoryError, fs).
Proof.
  intros H. destruct (lookup_snoc_dir _ _ _ _ H) as (es & Hb & E).
  exact (make_github_folder_repo_is_file _ _ _ _ _ _ _ Hb E).
Qed.

Lemma package_path_taken_by_file_witness :
  assemble ["out"] blocked_fs = (Raise NotADirectoryError, blocked_fs).
Proof.
  exact (package_path_taken_by_file ["out"] _ _ _ blocked_fs
           (Text "not a directory") eq_refl).
Defined.

(** X3. When a directory stands where the archive goes, the assembler raises
    [IsADirectoryError] (from [unlink]) only after it has rebuilt the
    Package Directory: the new Package Directory is complete and stays, the
    directory at the archive path and the other entries of the output
    directory are as before, and no archive is written. *)
Theorem archive_path_taken_by_directory base fs c1 c2 cd dz :
  lookup (base ++ ["uniform_table.png"]) fs = Some (File c1) ->
  lookup (base ++ ["rect_package_topview_8.png"]) fs = Some (File c2) ->
  lookup (base ++ ["generated_assessment.docx"]) fs = Some (File cd) ->
  (forall c, lookup (base ++ ["github_repo"]) fs <> Some (File c)) ->
  lookup (base ++ ["github_repo.zip"]) fs = Some (Dir dz) ->
  exists fs',
    assemble base fs = (Raise IsADirectoryError, fs') /\
    lookup (base ++ ["github_repo"]) fs' = package_dir c1 c2 cd /\
    forall k, k <> "github_repo" ->
              lookup (base ++ [k]) fs' = lookup (base ++ [k]) fs.
Proof.
  intros H1 H2 Hd Hrepo Hzip.
  destruct (lookup_snoc_dir _ _ _ _ H1) as (es & Hb & E1).
  rewrite (lookup_snoc _ _ _ _ Hb) in H2.
  rewrite (lookup_snoc _ _ _ _ Hb) in Hd.
  rewrite (lookup_snoc _ _ _ _ Hb) in Hzip.
  assert (Hrepo' : match alist_get "github_repo" es with
                   | Some (File _) => False | _ => True end).
  { destruct (alist_get "github_repo" es) as [[c|?]|] eqn:E; try exact I.
    apply (Hrepo c). now rewrite (lookup_snoc _ _ _ _ Hb). }
  destruct (make_github_folder_total base fs es Hb Hrepo') as (_ & T1).
  destruct (T1 c1 E1) as (_ & T2). destruct (T2 c2 H2) as (_ & T3).
  destruct (T3 cd Hd) as (T4 & _).
  destruct (T4 dz Hzip) as (fs' & es' & Hrun & Hb' & Hp & Hk).
  exists fs'. split; [exact Hrun|].
  rewrite (lookup_snoc _ _ _ _ Hb'). split; [exact Hp|].
  intros k Hne.
  now rewrite (lookup_snoc _ _ _ _ Hb'), (lookup_snoc _ _ _ _ Hb), Hk.
Qed.

Lemma archive_path_taken_by_directory_witness :
  exists fs',
    assemble ["out"] zip_dir_fs = (Raise IsADirectoryError, fs') /\
    lookup ["out"; "github_repo"] fs'
    = package_dir (Text "png1") (Text "png2") (Text "docx") /\
    lookup ["out"; "github_repo"; "STALE.txt"] fs' = None /\
    lookup ["out"; "github_repo.zip"] fs'
    = Some (Dir [("kept.txt", File (Text "kept"))]).
Proof.
  destruct (archive_path_taken_by_directory ["out"] zip_dir_fs
              (Text "png1") (Text "png2") (Text "docx")
              [("kept.txt", File (Text "kept"))])
    as (fs' & Hrun & Hp & Hk);
    [ reflexivity | reflexivity | reflexivity
    | intros c H; discriminate H | reflexivity | ].
  exists fs'. split; [exact Hrun|]. split; [exact Hp|]. split.
  - change ["out"; "github_repo"; "STALE.txt"]
      with ((["out"] ++ ["github_repo"]) ++ ["STALE.txt"]).
    rewrite lookup_app, Hp. reflexivity.
  - apply (Hk "github_repo.zip"). apply String.eqb_neq. reflexivity.
Defined.

(** X5. The archive loop names every file of the tree it walks, whatever the
    tree: for a directory tree [n] that stands at [top], [os.walk] ends, and
    the names [relative_to] computes for the files it reports are, up to
    their order, the paths of the regular files of [n] from its root; none
    of them fails to be relative to [top]. *)
Theorem archive_loop_names_every_file top fs n :
  lookup top fs = Some n -> named n = true ->
  exists triples qs,
    os_walk top fs = (Ok triples, fs) /\
    arcnames top triples = map (fun q => Ok q) qs /\
    Permutation qs (files_rel n).
Proof.
  intros Hl Hn. destruct (arcnames_of_any_tree top n Hn []) as (qs & Ha & Hp).
  rewrite app_nil_r in Ha. cbn [app] in Ha.
  exists (walk top n), qs. unfold os_walk. rewrite Hl. auto.
Qed.

Lemma archive_loop_names_every_file_witness :
  exists triples qs,
    os_walk ["out"; "github_repo"] stale_fs = (Ok triples, stale_fs) /\
    arcnames ["out"; "github_repo"] triples = map (fun q => Ok q) qs /\
    Permutation qs [["images"; "old.png"]; ["STALE.txt"]; ["README.md"]].
Proof.
  exact (archive_loop_names_every_file ["out"; "github_repo"] stale_fs _
           eq_refl eq_refl).
Defined.



(** X7. The layout of the saved document: after the heading come the
    paragraphs up to the end of the first question, then the first image,
    then the paragraphs of the second question, then the second image; each
    image is the path it was given, six inches wide, and stands right after
    the one record it belongs to.  The text does not depend on the paths or
    on the file system. *)
Theorem composed_document_layout docx_path img1 img2 fs fs' :
  create_docx docx_path img1 img2 fs = (Ok tt, fs') ->
  exists q1 q2 r1 r2,
    lookup docx_path fs'
    = Some (File (Docx (Heading "Generated Assessment Questions" 1
                        :: map Paragraph q1 ++ [Picture (str img1) 6]
                        ++ map Paragraph q2 ++ [Picture (str img2) 6]))) /\
    q1 ++ q2 = composed_paragraphs /\
    records (flat_map lines q1) = [r1] /\
    records (flat_map lines q2) = [r2] /\
    records (flat_map lines composed_paragraphs) = [r1; r2].
Proof.
  unfold create_docx. rewrite bind_eq. unfold add_picture at 1.
  rewrite bind_eq. destruct (read_file img1 fs) as [[c1|e1] fs1] eqn:E1;
    [|discriminate].
  apply read_file_state in E1. subst fs1.
  unfold ret at 1. rewrite bind_eq. unfold add_picture at 1. rewrite bind_eq.
  destruct (read_file img2 fs) as [[c2|e2] fs2] eqn:E2; [|discriminate].
  apply read_file_state in E2. subst fs2.
  unfold ret at 1. intros H. apply write_file_lookup in H.
  exists (firstn 18 composed_paragraphs), (skipn 18 composed_paragraphs).
  eexists _, _. split; [rewrite H; reflexivity|].
  split; [apply firstn_skipn|]. split; [reflexivity|]. split; reflexivity.
Qed.

Lemma composed_document_layout_witness :
  exists fs' q1 q2 r1 r2,
    lookup ["out"; "generated_assessment.docx"] fs'
    = Some (File (Docx (Heading "Generated Assessment Questions" 1
                        :: map Paragraph q1
                        ++ [Picture (str ["out"; "uniform_table.png"]) 6]
                        ++ map Paragraph q2
                        ++ [Picture (str ["out"; "rect_package_topview_8.png"]) 6]))) /\
    q1 ++ q2 = composed_paragraphs /\
    records (flat_map lines q1) = [r1] /\
    records (flat_map lines q2) = [r2] /\
    records (flat_map lines composed_paragraphs) = [r1; r2].
Proof.
  eexists.
  exact (composed_document_layout _ _ _ sample_fs _ sample_create_docx).
Defined.

(** *** The three generators *)

Lemma keeps_make_uniform_image (P : path -> Prop) load_default path_ :
  (forall q, P q -> diverge path_ q) ->
  keeps P (make_uniform_image load_default path_).
Proof.
  intros HP. unfold make_uniform_image.
  apply keeps_bind.
  - apply keeps_try_except; [|intros e; apply keeps_ret].
    apply keeps_bind; [apply keeps_lift_outcome|intros f; apply keeps_ret].
  - intros fnt. cbn -[write_file]. now apply keeps_update.
Qed.

Lemma keeps_make_packed_spheres_image (P : path -> Prop) path_ rows cols radius_cm :
  (forall q, P q -> diverge path_ q) ->
  keeps P (make_packed_spheres_image path_ rows cols radius_cm).
Proof.
  intros HP fs r fs'. rewrite make_packed_spheres_image_eq.
  now apply keeps_update.
Qed.

Lemma keeps_create_docx (P : path -> Prop) docx_path img1 img2 :
  (forall q, P q -> diverge docx_path q) ->
  keeps P (create_docx docx_path img1 img2).
Proof.
  intros HP. unfold create_docx, add_picture.
  repeat first
    [ apply keeps_ret
    | apply keeps_read_file
    | apply keeps_update; assumption
    | apply keeps_bind; [|intros ?] ].
Qed.






(** X9. What is raised while the font is loaded and is no [Exception] (a
    [KeyboardInterrupt]) is not absorbed: Renderer A raises it and writes
    no image. *)
Theorem font_load_interrupt_propagates e path_ fs :
  is_Exception e = false ->
  make_uniform_image (Raise e) path_ fs = (Raise e, fs).
Proof.
  intros H. unfold make_uniform_image. rewrite bind_eq.
  unfold try_except, lift_outcome. rewrite bind_eq. now rewrite H.
Qed.

Lemma font_load_interrupt_propagates_witness :
  make_uniform_image (Raise KeyboardInterrupt) ["out"; "uniform_table.png"] sample_fs
  = (Raise KeyboardInterrupt, sample_fs).
Proof.
  exact (font_load_interrupt_propagates KeyboardInterrupt _ sample_fs eq_refl).
Defined.

(** *** A whole run *)

Lemma quiet_liftfs {G A : Type} (P : path -> Prop) (m : M node A) :
  keeps P m -> quiet P (@liftfs G A m).
Proof.
  intros Hm w r w' H. unfold liftfs in H.
  destruct (m (w_fs w)) as [r0 fs'] eqn:E. injection H as _ <-.
  cbn [w_fs w_git w_calls]. split; [reflexivity|]. split; [reflexivity|].
  exact (Hm _ _ _ E).
Qed.

Lemma quiet_ret {G A : Type} (P : path -> Prop) (a : A) :
  quiet P (@ret (world G) A a).
Proof. intros w r w' [= _ <-]. auto. Qed.

Lemma quiet_bind {G A B : Type} (P : path -> Prop)
    (m : M (world G) A) (k : A -> M (world G) B) :
  quiet P m -> (forall a, quiet P (k a)) -> quiet P (bind m k).
Proof.
  intros Hm Hk w r w' H. unfold bind in H.
  destruct (m w) as [[a|e] w1] eqn:E.
  - destruct (Hm _ _ _ E) as (C1 & G1 & F1).
    destruct (Hk a _ _ _ H) as (C2 & G2 & F2).
    split; [congruence|]. split; [congruence|].
    intros q Hq. now rewrite (F2 q Hq), (F1 q Hq).
  - injection H as _ <-. exact (Hm _ _ _ E).
Qed.

(** X10. A run that is not asked to publish (no remote, or an empty one) runs
    no child process, leaves the state of the tool alone and changes
    nothing outside the output directory, whatever its outcome. *)
Theorem without_push_only_the_output_directory_changes {G : Type}
    (tool : list string -> path -> node * G -> Z * (node * G))
    load_default outdir push_repo branch (w : world G) r w' :
  push_repo = None \/ push_repo = Some "" ->
  main tool load_default outdir push_repo branch w = (r, w') ->
  w_calls w' = w_calls w /\ w_git w' = w_git w /\
  forall q, diverge outdir q -> lookup q (w_fs w') = lookup q (w_fs w).
Proof.
  intros Hp. revert w r w'. fold (quiet (diverge outdir)
    (main tool load_default outdir push_repo branch)).
  unfold main.
  apply quiet_bind.
  { apply quiet_liftfs. now apply keeps_update. }
  intros _. apply quiet_bind.
  { apply quiet_liftfs, keeps_make_uniform_image.
    intros q Hq. now apply diverge_joinpath. }
  intros _. apply quiet_bind.
  { apply quiet_liftfs, keeps_make_packed_spheres_image.
    intros q Hq. now apply diverge_joinpath. }
  intros _. apply quiet_bind.
  { apply quiet_liftfs, keeps_create_docx.
    intros q Hq. now apply diverge_joinpath. }
  intros _. apply quiet_bind.
  { apply quiet_liftfs.
    apply (keeps_weaken _ _ _ (fun q Hq =>
             conj (diverge_app outdir ["github_repo"] q Hq)
                  (diverge_app outdir ["github_repo.zip"] q Hq))).
    apply keeps_make_github_folder. }
  intros [repo_dir zip_path].
  destruct Hp as [-> | ->]; apply quiet_ret.
Qed.

Lemma without_push_only_the_output_directory_changes_witness :
  w_calls (snd (main git_tool (Ok DefaultFont) ["out"] (Some "") "main"
                  package_with_origin))
  = w_calls package_with_origin /\
  w_git (snd (main git_tool (Ok DefaultFont) ["out"] (Some "") "main"
                package_with_origin))
  = w_git package_with_origin.
Proof.
  destruct (without_push_only_the_output_directory_changes
              git_tool (Ok DefaultFont) ["out"] (Some "") "main"
              package_with_origin _ _ (or_intror eq_refl) (surjective_pairing _))
    as (Hc & Hg & _).
  split; assumption.
Defined.

Lemma bind_ok {S A B : Type} (m : M S A) (k : A -> M S B) s b s' :
  bind m k s = (Ok b, s') ->
  exists a s1, m s = (Ok a, s1) /\ k a s1 = (Ok b, s').
Proof.
  unfold bind. destruct (m s) as [[a|e] s1]; [eauto|discriminate].
Qed.

(** The two paths the assembler returns are those of the Package Directory
    and of the archive. *)
Lemma make_github_folder_returns base img1 img2 docx_path fs r fs' :
  make_github_folder base img1 img2 docx_path fs = (Ok r, fs') ->
  r = (base // "github_repo", base // "github_repo.zip").
Proof.
  unfold make_github_folder. intros H.
  repeat (apply bind_ok in H; destruct H as (? & ? & _ & H)).
  now injection H as <- _.
Qed.

(** X11. A run that is asked to publish is the run that is not, followed, when
    that has completed, by the publisher in the Package Directory: the
    publisher starts from the world the generation has left and only once
    all of it is done, what it raises reaches the caller as it is, and
    when the generation raises the publisher is not started. *)
Theorem publishing_follows_generation {G : Type}
    (tool : list string -> path -> node * G -> Z * (node * G))
    load_default outdir remote branch (w : world G) :
  remote <> "" ->
  main tool load_default outdir (Some remote) branch w
  = match main tool load_default outdir None branch w with
    | (Ok _, w1) =>
        git_init_and_push tool (outdir // "github_repo") remote branch w1
    | (Raise e, w1) => (Raise e, w1)
    end.
Proof.
  intros Hr. apply String.eqb_neq in Hr. unfold main. rewrite Hr.
  unfold bind at 1 6.
  destruct (liftfs (mkdir true true outdir) w) as [[[]|e] w1]; [|reflexivity].
  unfold bind at 1 5.
  destruct (liftfs (make_uniform_image load_default (outdir // "uniform_table.png")) w1)
    as [[[]|e] w2]; [|reflexivity].
  unfold bind at 1 4.
  destruct (liftfs (make_packed_spheres_image
                      (outdir // "rect_package_topview_8.png") 2 4 2) w2)
    as [[[]|e] w3]; [|reflexivity].
  unfold bind at 1 3.
  destruct (liftfs (create_docx (outdir // "generated_assessment.docx")
                      (outdir // "uniform_table.png")
                      (outdir // "rect_package_topview_8.png")) w3)
    as [[[]|e] w4]; [|reflexivity].
  unfold bind at 1 2.
  destruct (liftfs (make_github_folder outdir (outdir // "uniform_table.png")
                      (outdir // "rect_package_topview_8.png")
                      (outdir // "generated_assessment.docx")) w4)
    as [[[repo_dir zip_path]|e] w5] eqn:E; [|reflexivity].
  unfold liftfs in E.
  destruct (make_github_folder _ _ _ _ (w_fs w4)) as [r5 fs5] eqn:E5.
  injection E as -> <-.
  apply make_github_folder_returns in E5. injection E5 as -> ->.
  unfold ret. apply reraise_is_identity.
Qed.

Lemma publishing_follows_generation_witness :
  main git_tool (Ok DefaultFont) ["out"] (Some "https://example.org/new.git")
    "main" package_with_origin
  = match main git_tool (Ok DefaultFont) ["out"] None "main" package_with_origin with
    | (Ok _, w1) =>
        git_init_and_push git_tool (["out"] // "github_repo")
          "https://example.org/new.git" "main" w1
    | (Raise e, w1) => (Raise e, w1)
    end.
Proof.
  apply (publishing_follows_generation git_tool (Ok DefaultFont) ["out"]
           "https://example.org/new.git" "main" package_with_origin).
  apply String.eqb_neq. reflexivity.
Defined.

(** X12. After a completed run the Package Directory and the archive hold the
    very files the run has generated: the table image, the figure of two
    rows of four circles and the document stand in the output directory,
    and their copies in the package and the archive entries of these names
    hold the same contents. *)
Theorem package_copies_are_the_generated_files {G : Type}
    (tool : list string -> path -> node * G -> Z * (node * G))
    load_default base branch (w w' : world G) :
  main tool load_default base None branch w = (Ok tt, w') ->
  exists img doc entries,
    let fig := FigurePng (snd (packed_spheres_figure 2 4 2)) (2 # 100) in
    paragraphs doc = composed_paragraphs /\
    lookup (base ++ ["uniform_table.png"]) (w_fs w') = Some (File (Png img)) /\
    lookup (base ++ ["rect_package_topview_8.png"]) (w_fs w') = Some (File fig) /\
    lookup (base ++ ["generated_assessment.docx"]) (w_fs w')
    = Some (File (Docx doc)) /\
    lookup (base ++ ["github_repo"; "images"; "uniform_table.png"]) (w_fs w')
    = Some (File (Png img)) /\
    lookup (base ++ ["github_repo"; "images"; "rect_package_topview_8.png"])
      (w_fs w')
    = Some (File fig) /\
    lookup (base ++ ["github_repo"; "generated_assessment.docx"]) (w_fs w')
    = Some (File (Docx doc)) /\
    lookup (base ++ ["github_repo.zip"]) (w_fs w')
    = Some (File (ZipArchive entries)) /\
    In ("images/uniform_table.png", Png img) entries /\
    In ("images/rect_package_topview_8.png", fig) entries /\
    In ("generated_assessment.docx", Docx doc) entries.
Proof.
  intros H. destruct (main_inv _ _ _ _ _ _ H)
    as (fs4 & c1 & c2 & cd & Hr & Hrun & _ & _ & img & doc & -> & -> & -> & Hpar).
  destruct (assemble_spec _ _ _ _ _ Hr) as (fs' & Hrun' & Hp & Hz & Hk).
  assert (E : fs' = w_fs w') by congruence. subst fs'.
  destruct Hr as (H1 & H2 & Hd & _).
  rewrite package_dir_shape in Hp. rewrite package_zip_shape in Hz.
  exists img, doc. eexists. cbv zeta.
  split; [exact Hpar|].
  rewrite (Hk "uniform_table.png"), (Hk "rect_package_topview_8.png"),
    (Hk "generated_assessment.docx") by discriminate.
  split; [exact H1|]. split; [exact H2|]. split; [exact Hd|].
  change (base ++ ["github_repo"; "images"; "uniform_table.png"])
    with (base ++ ["github_repo"] ++ ["images"; "uniform_table.png"]).
  change (base ++ ["github_repo"; "images"; "rect_package_topview_8.png"])
    with (base ++ ["github_repo"] ++ ["images"; "rect_package_topview_8.png"]).
  change (base ++ ["github_repo"; "generated_assessment.docx"])
    with (base ++ ["github_repo"] ++ ["generated_assessment.docx"]).
  rewrite !app_assoc, !(lookup_app_some _ _ _ _ Hp).
  split; [reflexivity|]. split; [reflexivity|]. split; [reflexivity|].
  split; [exact Hz|]. cbn [In]. tauto.
Qed.

Lemma package_copies_are_the_generated_files_witness :
  exists w' img doc,
    main no_tool (Ok DefaultFont) ["out"] None "main" empty_world = (Ok tt, w') /\
    lookup ["out"; "uniform_table.png"] (w_fs w') = Some (File (Png img)) /\
    lookup ["out"; "github_repo"; "images"; "uniform_table.png"] (w_fs w')
    = Some (File (Png img)) /\
    lookup ["out"; "generated_assessment.docx"] (w_fs w') = Some (File (Docx doc)) /\
    lookup ["out"; "github_repo"; "generated_assessment.docx"] (w_fs w')
    = Some (File (Docx doc)).
Proof.
  destruct (package_copies_are_the_generated_files _ _ _ _ _ _ first_run)
    as (img & doc & entries & _ & A1 & _ & A3 & A4 & _ & A6 & _).
  eexists _, img, doc. split; [exact first_run|]. auto.
Defined.

(** *** The packed circles, one against another and against the canvas *)









(** *** When a run completes *)





Lemma creatable_existing p fs es : lookup p fs = Some (Dir es) -> creatable p fs = true.
Proof.
  revert fs. induction p as [|c p IH]; intros fs H.
  - cbn in H. now injection H as ->.
  - cbn [lookup] in H. destruct fs as [?|es0]; [discriminate|]. cbn [creatable].
    destruct (alist_get c es0) as [m|]; [now apply IH|reflexivity].
Qed.






(** X16. Assembling twice is assembling once: after a completed run of the
    assembler a second run completes too, returns the same paths and leaves
    every entry of the base directory, the Package Directory and the
    archive among them, as the first run left it. *)
Theorem assembling_twice_is_assembling_once base fs r fs1 :
  assemble base fs = (Ok r, fs1) ->
  exists fs2,
    assemble base fs1 = (Ok r, fs2) /\
    forall k, lookup (base ++ [k]) fs2 = lookup (base ++ [k]) fs1.
Proof.
  intros H. destruct (assemble_only_if_ready _ _ _ _ H) as (c1 & c2 & cd & Hr).
  destruct (assemble_spec _ _ _ _ _ Hr) as (fs' & Hrun & Hp & Hz & Hk).
  rewrite H in Hrun. injection Hrun as -> <-.
  destruct Hr as (H1 & H2 & Hd & _).
  assert (Hr1 : assembler_ready base fs1 c1 c2 cd).
  { unfold assembler_ready.
    rewrite (Hk "uniform_table.png"), (Hk "rect_package_topview_8.png"),
      (Hk "generated_assessment.docx") by discriminate.
    rewrite Hp, Hz, package_dir_shape, package_zip_shape.
    repeat split; try assumption; intros x; discriminate. }
  destruct (assemble_spec _ _ _ _ _ Hr1) as (fs2 & Hrun2 & Hp2 & Hz2 & Hk2).
  exists fs2. split; [exact Hrun2|]. intros k.
  destruct (string_dec k "github_repo") as [->|N1]; [congruence|].
  destruct (string_dec k "github_repo.zip") as [->|N2]; [congruence|].
  now apply Hk2.
Qed.

Lemma assembling_twice_is_assembling_once_witness :
  exists fs1 fs2,
    assemble ["out"] stale_fs
    = (Ok (["out"; "github_repo"], ["out"; "github_repo.zip"]), fs1) /\
    assemble ["out"] fs1
    = (Ok (["out"; "github_repo"], ["out"; "github_repo.zip"]), fs2) /\
    lookup ["out"; "github_repo"] fs2 = lookup ["out"; "github_repo"] fs1.
Proof.
  assert (H : assemble ["out"] stale_fs
              = (Ok (["out"; "github_repo"], ["out"; "github_repo.zip"]),
                 snd (assemble ["out"] stale_fs)))
    by (vm_compute; reflexivity).
  destruct (assembling_twice_is_assembling_once _ _ _ _ H) as (fs2 & Hrun & Hk).
  eexists _, fs2. split; [exact H|]. split; [exact Hrun|].
  exact (Hk "github_repo").
Defined.

(** *** The publisher when every command succeeds *)

Lemma subprocess_run_ok {G : Type}
    (tool : list string -> path -> node * G -> Z * (node * G))
    cmd cwd check (w : world G) :
  (forall cmd s, fst (tool cmd cwd s) = 0) ->
  (forall cmd s, (exists es, lookup cwd (fst s) = Some (Dir es)) ->
                 exists es, lookup cwd (fst (snd (tool cmd cwd s))) = Some (Dir es)) ->
  (exists es, lookup cwd (w_fs w) = Some (Dir es)) ->
  exists w1,
    subprocess_run tool cmd cwd check w = (Ok 0, w1) /\
    (exists es, lookup cwd (w_fs w1) = Some (Dir es)) /\
    w_calls w1 = w_calls w ++ [(cmd, 0)].
Proof.
  intros Hz Hkeep (es & Hd). unfold subprocess_run. rewrite Hd.
  specialize (Hz cmd (w_fs w, w_git w)).
  specialize (Hkeep cmd (w_fs w, w_git w) (ex_intro _ es Hd)).
  destruct (tool cmd cwd (w_fs w, w_git w)) as [rc [fs' g']].
  cbn [fst snd] in Hz, Hkeep. subst rc.
  rewrite andb_false_r. eexists. split; [reflexivity|]. cbn [w_fs w_calls]. auto.
Qed.

(** X17. With a tool whose every command returns zero (and leaves the working
    directory in place) the publisher completes, and the commands it has
    run are the whole plan in its order, the removal of [origin] included:
    initialise only when there is no repository, branch, stage, commit,
    list the remotes, remove [origin], add [origin], push. *)
Theorem publisher_runs_the_whole_plan {G : Type}
    (tool : list string -> path -> node * G -> Z * (node * G))
    repo_dir remote_url branch (w : world G) :
  (forall cmd s, fst (tool cmd repo_dir s) = 0) ->
  (forall cmd s, (exists es, lookup repo_dir (fst s) = Some (Dir es)) ->
                 exists es, lookup repo_dir (fst (snd (tool cmd repo_dir s)))
                            = Some (Dir es)) ->
  (exists es, lookup repo_dir (w_fs w) = Some (Dir es)) ->
  exists w',
    git_init_and_push tool repo_dir remote_url branch w = (Ok tt, w') /\
    w_calls w'
    = w_calls w ++
      map (fun c => (c, 0))
          (publish_plan match lookup (repo_dir ++ [".git"]) (w_fs w) with
                        | Some _ => true
                        | None => false
                        end true remote_url branch).
Proof.
  intros Hz Hkeep Hinv. unfold git_init_and_push.
  change (repo_dir // ".git") with (repo_dir ++ [".git"]).
  rewrite bind_eq. unfold liftfs at 1, exists_.
  assert (Hinit : exists w1,
            when (negb match lookup (repo_dir ++ [".git"]) (w_fs w) with
                       | Some _ => true
                       | None => false
                       end)
              (subprocess_run tool ["git"; "init"] repo_dir true ;; ret tt)
              (mkWorld (w_fs w) (w_git w) (w_calls w))
            = (Ok tt, w1) /\
            (exists es, lookup repo_dir (w_fs w1) = Some (Dir es)) /\
            w_calls w1
            = w_calls w ++
              map (fun c => (c, 0))
                  (if match lookup (repo_dir ++ [".git"]) (w_fs w) with
                      | Some _ => true
                      | None => false
                      end then [] else [["git"; "init"]])).
  { destruct (lookup (repo_dir ++ [".git"]) (w_fs w)); cbn [negb when map].
    - eexists. split; [reflexivity|]. cbn [w_fs w_calls].
      split; [exact Hinv|]. now rewrite app_nil_r.
    - destruct (subprocess_run_ok tool ["git"; "init"] repo_dir true
                  (mkWorld (w_fs w) (w_git w) (w_calls w)) Hz Hkeep Hinv)
        as (w1 & E & Hinv1 & C).
      rewrite bind_eq, E. eexists. split; [reflexivity|]. auto. }
  destruct Hinit as (w1 & E1 & Hinv1 & C1). rewrite bind_eq, E1.
  destruct (subprocess_run_ok tool ["git"; "checkout"; "-B"; branch] repo_dir true
              w1 Hz Hkeep Hinv1) as (w2 & E2 & Hinv2 & C2).
  rewrite !bind_eq, E2. unfold ret at 1.
  destruct (subprocess_run_ok tool ["git"; "add"; "."] repo_dir true
              w2 Hz Hkeep Hinv2) as (w3 & E3 & Hinv3 & C3).
  rewrite !bind_eq, E3. unfold ret at 1.
  destruct (subprocess_run_ok tool
              ["git"; "commit"; "-m"; "Add generated assessment questions"]
              repo_dir true w3 Hz Hkeep Hinv3) as (w4 & E4 & Hinv4 & C4).
  rewrite !bind_eq, E4. unfold ret at 1.
  destruct (subprocess_run_ok tool ["git"; "remote"] repo_dir false
              w4 Hz Hkeep Hinv4) as (w5 & E5 & Hinv5 & C5).
  rewrite !bind_eq, E5. cbn [Z.eqb when].
  destruct (subprocess_run_ok tool ["git"; "remote"; "remove"; "origin"]
              repo_dir true w5 Hz Hkeep Hinv5) as (w6 & E6 & Hinv6 & C6).
  rewrite !bind_eq, E6. unfold ret at 1.
  destruct (subprocess_run_ok tool ["git"; "remote"; "add"; "origin"; remote_url]
              repo_dir true w6 Hz Hkeep Hinv6) as (w7 & E7 & Hinv7 & C7).
  rewrite !bind_eq, E7. unfold ret at 1.
  destruct (subprocess_run_ok tool ["git"; "push"; "-u"; "origin"; branch]
              repo_dir true w7 Hz Hkeep Hinv7) as (w8 & E8 & Hinv8 & C8).
  rewrite !bind_eq, E8. unfold ret.
  eexists. split; [reflexivity|].
  rewrite C8, C7, C6, C5, C4, C3, C2, C1. unfold publish_plan.
  rewrite !map_app, <- !app_assoc. reflexivity.
Qed.

Lemma publisher_runs_the_whole_plan_witness :
  exists w',
    git_init_and_push no_tool ["out"; "github_repo"]
      "https://example.org/new.git" "main"
      (mkWorld (snd (assemble ["out"] sample_fs)) tt [])
    = (Ok tt, w') /\
    w_calls w'
    = [(["git"; "init"], 0); (["git"; "checkout"; "-B"; "main"], 0);
       (["git"; "add"; "."], 0);
       (["git"; "commit"; "-m"; "Add generated assessment questions"], 0);
       (["git"; "remote"], 0); (["git"; "remote"; "remove"; "origin"], 0);
       (["git"; "remote"; "add"; "origin"; "https://example.org/new.git"], 0);
       (["git"; "push"; "-u"; "origin"; "main"], 0)].
Proof.
  apply (publisher_runs_the_whole_plan no_tool ["out"; "github_repo"]
           "https://example.org/new.git" "main"
           (mkWorld (snd (assemble ["out"] sample_fs)) tt [])).
  - reflexivity.
  - intros cmd s H. exact H.
  - eexists. vm_compute. reflexivity.
Defined.

(** *** A run that fails half-way *)




(** *** The table image *)

(** X19. The layout of the table image, with or without a font: the canvas is
    900 by 280; the ten boxes lie within it and no two of them touch; they
    stand in three columns of 4, 3 and 3 at 20, 260 and 500; and after the
    two headings every label is drawn 5 to the right of and 6 below the
    corner of its own box, in the order of the boxes. *)
Theorem table_image_layout load_default path_ fs fs' :
  make_uniform_image load_default path_ fs = (Ok tt, fs') ->
  exists img,
    lookup path_ fs' = Some (File (Png img)) /\
    img_size img = (900, 280) /\
    forallb (box_in_canvas (img_size img)) (image_boxes img) = true /\
    pairwise boxes_apart (image_boxes img) = true /\
    map (fun x => length (filter (fun b => fst (fst (fst b)) =? x) (image_boxes img)))
        [20; 260; 500]
    = [4; 3; 3]%nat /\
    map fst (skipn 2 (image_texts img))
    = map (fun '(x0, y0, _, _) => (x0 + 5, y0 + 6)) (image_boxes img).
Proof.
  unfold make_uniform_image. rewrite bind_eq.
  unfold try_except, lift_outcome. rewrite bind_eq.
  destruct load_default as [f|e].
  - unfold ret. cbn -[write_file]. intros H. apply write_file_lookup in H.
    eexists. split; [exact H|]. repeat split.
  - cbv beta iota. destruct (is_Exception e); [|discriminate].
    unfold ret. cbn -[write_file]. intros H. apply write_file_lookup in H.
    eexists. split; [exact H|]. repeat split.
Qed.

Lemma table_image_layout_witness :
  exists img,
    lookup ["out"; "uniform_table.png"]
      (snd (make_uniform_image (Ok DefaultFont) ["out"; "uniform_table.png"]
              sample_fs))
    = Some (File (Png img)) /\
    img_size img = (900, 280) /\
    pairwise boxes_apart (image_boxes img) = true.
Proof.
  destruct (table_image_layout (Ok DefaultFont) ["out"; "uniform_table.png"]
              sample_fs _ (surjective_pairing _))
    as (img & H1 & H2 & _ & H4 & _).
  exists img. auto.
Defined.

(** *** An image that lies inside the old package *)

Lemma lookup_fresh_package_no_file q c :
  lookup ("github_repo" :: q)
    (Dir [("github_repo", Dir [("images", Dir [])])]) <> Some (File c).
Proof.
  cbn. destruct q as [|k q]; [discriminate|]. cbn.
  destruct (String.eqb k "images"); [|discriminate].
  destruct q as [|k' q]; [discriminate|]. cbn. discriminate.
Qed.

(** X20. The assembler clears the Package Directory before it reads its
    inputs: when the first image lies inside the old Package Directory it
    is deleted with it, the copy raises, and what is left is a new Package
    Directory that holds an empty [images] directory and nothing else. *)
Theorem assembler_deletes_an_input_inside_the_package
    base q img2 docx_path fs old :
  lookup (base ++ ["github_repo"]) fs = Some (Dir old) ->
  exists e fs',
    make_github_folder base (base ++ "github_repo" :: q) img2 docx_path fs
    = (Raise e, fs') /\
    lookup (base ++ ["github_repo"]) fs' = Some (Dir [("images", Dir [])]).
Proof.
  intros H. destruct (lookup_snoc_dir _ _ _ _ H) as (es & Hb & E).
  unfold make_github_folder.
  change (base // "github_repo") with (base ++ ["github_repo"]).
  change ((base ++ ["github_repo"]) // "images")
    with ((base ++ ["github_repo"]) ++ ["images"]).
  rewrite bind_eq, (exists_under _ _ _ _ Hb). cbn [lookup]. rewrite E.
  rewrite bind_eq. unfold when, rmtree.
  rewrite (update_under _ _ _ _ _ _ Hb) by discriminate.
  cbn [alter]. rewrite E. cbn [alist_put]. advance Hb.
  step_update Hb. advance Hb.
  rewrite <- app_assoc. cbn [app].
  step_update Hb. advance Hb.
  rewrite bind_eq.
  assert (Hd : exists qd,
            (base ++ ["github_repo"; "images"]) // name (base ++ "github_repo" :: q)
            = base ++ qd).
  { unfold joinpath. destruct (String.eqb _ _); [eauto|].
    rewrite <- app_assoc. eauto. }
  destruct Hd as (qd & ->).
  destruct (shutil_copy_fails_under base ("github_repo" :: q) qd _ _ Hb) as (e & ->).
  - intros c. alist_norm. apply lookup_fresh_package_no_file.
  - exists e. eexists. split; [reflexivity|].
    rewrite (lookup_snoc _ _ _ _ Hb). alist_norm. reflexivity.
Qed.

Lemma assembler_deletes_an_input_inside_the_package_witness :
  exists e fs',
    make_github_folder ["out"] ["out"; "github_repo"; "images"; "old.png"]
      ["out"; "rect_package_topview_8.png"] ["out"; "generated_assessment.docx"]
      stale_fs
    = (Raise e, fs') /\
    lookup ["out"; "github_repo"] fs' = Some (Dir [("images", Dir [])]).
Proof.
  exact (assembler_deletes_an_input_inside_the_package ["out"]
           ["images"; "old.png"] _ _ stale_fs _ eq_refl).
Defined.
